(** * Settings editor: key paths, rendering and rebuild

    A shallow embedding of [pages/2_Settings_Editor.py]: the widget
    renderer [render_setting], the page loop that calls it, and
    [build_updated_settings], which rebuilds the settings mapping from
    Streamlit's session state.

    Python values are the JSON data the settings API returns.  A [str] is
    modelled as a Rocq [string] whose characters are the code points
    U+0000..U+00FF, so the character classes below are Python's, restricted
    to that range; a float is a binary64 float.

    The renderer is modelled by the widgets it creates (key, value shown,
    disabled or not) and the headers of mappings; labels, bounds and steps
    of the inputs play no part in the rebuild and are left out.  The
    rebuild returns the new mapping together with its events: the lookups
    in the session state and the diagnostics it reports, each kept with the
    key path being visited.  What PyYAML and the interpreter's [float] and
    [repr] compute is taken from a [runtime] record.  The HTTP helpers are
    not modelled. *)

From Stdlib Require Import ZArith String Ascii List Floats Lia Permutation.
From Stdlib Require Import DecimalString DecimalPos DecimalZ.
From stdpp Require Import gmap strings.
Import ListNotations.

Open Scope string_scope.
Open Scope Z_scope.
Open Scope list_scope.

(** ** Python strings *)

Module PyStr.

Definition code (c : ascii) : N := N_of_ascii c.

Definition in_range (lo hi : N) (c : ascii) : bool :=
  ((lo <=? code c) && (code c <=? hi))%N.

(** [str.isspace] on one character: what [str.strip()] removes. *)
Definition is_space (c : ascii) : bool :=
  in_range 9 13 c || in_range 28 32 c || (code c =? 133)%N || (code c =? 160)%N.

(** Line boundaries of [str.splitlines()]. *)
Definition is_linebreak (c : ascii) : bool :=
  in_range 10 13 c || in_range 28 30 c || (code c =? 133)%N.

(** The decimal digits [0]..[9], the only ones [int()] reads. *)
Definition is_decimal (c : ascii) : bool := in_range 48 57 c.

(** One character of [str.isdigit]: the decimal digits and the
    superscript digits U+00B2, U+00B3 and U+00B9. *)
Definition is_digit (c : ascii) : bool :=
  is_decimal c || (code c =? 178)%N || (code c =? 179)%N || (code c =? 185)%N.

(** Whitespace [int()] skips around a number: the ASCII blanks, and the
    two non-ASCII spaces of the range. *)
Definition is_int_space (c : ascii) : bool :=
  in_range 9 13 c || (code c =? 32)%N || (code c =? 133)%N || (code c =? 160)%N.

Definition digit_value (c : ascii) : Z := Z.of_N (code c) - 48.

Fixpoint all_chars (p : ascii -> bool) (s : string) : bool :=
  match s with
  | EmptyString => true
  | String c r => p c && all_chars p r
  end.

Definition is_empty (s : string) : bool :=
  match s with EmptyString => true | String _ _ => false end.

(** [s.isdigit()] *)
Definition isdigit (s : string) : bool :=
  negb (is_empty s) && all_chars is_digit s.

Fixpoint lstrip_with (p : ascii -> bool) (s : string) : string :=
  match s with
  | EmptyString => EmptyString
  | String c r => if p c then lstrip_with p r else s
  end.

Fixpoint rstrip_with (p : ascii -> bool) (s : string) : string :=
  match s with
  | EmptyString => EmptyString
  | String c r =>
      let r' := rstrip_with p r in
      if is_empty r' && p c then EmptyString else String c r'
  end.

Definition strip_with (p : ascii -> bool) (s : string) : string :=
  rstrip_with p (lstrip_with p s).

(** [s.strip()] *)
Definition strip (s : string) : string := strip_with is_space s.

(** [s.splitlines()]: a carriage return followed by a line feed is one
    boundary, and a final boundary opens no further line. *)
Fixpoint splitlines (s : string) : list string :=
  match s with
  | EmptyString => []
  | String c r =>
      if is_linebreak c then
        match r with
        | String d r' =>
            if ((code c =? 13) && (code d =? 10))%N
            then EmptyString :: splitlines r'
            else EmptyString :: splitlines r
        | EmptyString => [EmptyString]
        end
      else
        match splitlines r with
        | [] => [String c EmptyString]
        | l :: ls => String c l :: ls
        end
  end.

(** [sep.join(parts)] *)
Definition join (sep : string) (parts : list string) : string :=
  String.concat sep parts.

Definition lower_char (c : ascii) : ascii :=
  if in_range 65 90 c || (in_range 192 222 c && negb (code c =? 215)%N)
  then ascii_of_N (code c + 32)
  else c.

(** [s.lower()] *)
Fixpoint lower (s : string) : string :=
  match s with
  | EmptyString => EmptyString
  | String c r => String (lower_char c) (lower r)
  end.

(** [str(n)] for an [int]. *)
Definition of_int (z : Z) : string := NilEmpty.string_of_int (Z.to_int z).

(** The digits of an [int()] literal after its first digit: decimal
    digits, with single underscores allowed between two digits. *)
Fixpoint int_digits (acc : Z) (s : string) : option Z :=
  match s with
  | EmptyString => Some acc
  | String c r =>
      if is_decimal c then int_digits (10 * acc + digit_value c) r
      else if (code c =? 95)%N then
        match r with
        | String d r' =>
            if is_decimal d then int_digits (10 * acc + digit_value d) r'
            else None
        | EmptyString => None
        end
      else None
  end.

Definition int_body (s : string) : option Z :=
  match s with
  | String c r => if is_decimal c then int_digits (digit_value c) r else None
  | EmptyString => None
  end.

(** [int(s)] for a [str]; [None] is [ValueError]. *)
Definition to_int (s : string) : option Z :=
  match strip_with is_int_space s with
  | String c r =>
      if (code c =? 45)%N then option_map Z.opp (int_body r)
      else if (code c =? 43)%N then int_body r
      else int_body (String c r)
  | EmptyString => None
  end.

End PyStr.


(** ** Python values *)

#[local] Set Warnings "-register-all".

(** The values a settings tree holds and a widget returns.  A [dict] is
    its list of items in insertion order; keys are strings. *)
Inductive value : Type :=
| VNone
| VBool (b : bool)
| VInt (z : Z)
| VFloat (f : float)
| VStr (s : string)
| VList (l : list value)
| VDict (d : list (string * value)).

(** [type(v)] *)
Inductive pytype : Set :=
| TNone | TBool | TInt | TFloat | TStr | TList | TDict.

Definition type_of (v : value) : pytype :=
  match v with
  | VNone => TNone
  | VBool _ => TBool
  | VInt _ => TInt
  | VFloat _ => TFloat
  | VStr _ => TStr
  | VList _ => TList
  | VDict _ => TDict
  end.

Definition is_dict (v : value) : bool :=
  match v with VDict _ => true | _ => false end.

(** [d[key]] on the items of a dict, [None] for a missing key. *)
Fixpoint dict_get (key : string) (d : list (string * value)) : option value :=
  match d with
  | [] => None
  | (k, v) :: d' => if String.eqb k key then Some v else dict_get key d'
  end.

(** [d[key] = v]: a present key keeps its place, a new one goes last. *)
Fixpoint dict_set (key : string) (v : value) (d : list (string * value))
  : list (string * value) :=
  match d with
  | [] => [(key, v)]
  | (k, x) :: d' =>
      if String.eqb k key then (k, v) :: d' else (k, x) :: dict_set key v d'
  end.

(** The outcome of an expression that may raise.  The rebuild tells
    [ValueError] from every other exception. *)
Inductive outcome (A : Type) : Type :=
| Ok (a : A)
| ValueError
| OtherError.

Arguments Ok {A} a.
Arguments ValueError {A}.
Arguments OtherError {A}.

(** What the interpreter and PyYAML supply: the module flag
    [PYYAML_AVAILABLE], [yaml.safe_load] and [yaml.dump] (the renderer
    catches every exception of the latter), [float()] of a [str], and
    [str()] of a float, a list or a dict. *)
Record runtime : Type := {
  PYYAML_AVAILABLE : bool;
  yaml_safe_load : string -> outcome value;
  yaml_dump : list value -> option string;
  float_of_str : string -> option float;
  repr : value -> string
}.

(** [bool(v)] *)
Definition py_bool (v : value) : bool :=
  match v with
  | VNone => false
  | VBool b => b
  | VInt z => negb (z =? 0)
  | VFloat f => negb (PrimFloat.eqb f PrimFloat.zero)
  | VStr s => negb (PyStr.is_empty s)
  | VList [] => false
  | VList (_ :: _) => true
  | VDict [] => false
  | VDict (_ :: _) => true
  end.

(** [int(f)] for a float: truncation towards zero; NaN is a
    [ValueError], an infinity an [OverflowError]. *)
Definition int_of_float (f : float) : outcome Z :=
  match Prim2SF f with
  | S754_zero _ => Ok 0
  | S754_finite s m e =>
      let a := if 0 <=? e then Z.pos m * 2 ^ e else Z.pos m / 2 ^ (- e) in
      Ok (if s then - a else a)
  | S754_nan => ValueError
  | S754_infinity _ => OtherError
  end.

(** [float(z)] for an int: the nearest float, or [OverflowError]. *)
Definition float_of_int (z : Z) : outcome float :=
  match binary_normalize prec emax z 0 false with
  | S754_infinity _ => OtherError
  | x => Ok (SF2Prim x)
  end.

(** [int(v)] *)
Definition py_int (v : value) : outcome Z :=
  match v with
  | VBool b => Ok (if b then 1 else 0)
  | VInt z => Ok z
  | VFloat f => int_of_float f
  | VStr s => match PyStr.to_int s with Some z => Ok z | None => ValueError end
  | VNone | VList _ | VDict _ => OtherError
  end.

(** [float(v)] *)
Definition py_float (rt : runtime) (v : value) : outcome float :=
  match v with
  | VBool b => Ok (if b then PrimFloat.one else PrimFloat.zero)
  | VInt z => float_of_int z
  | VFloat f => Ok f
  | VStr s => match float_of_str rt s with Some f => Ok f | None => ValueError end
  | VNone | VList _ | VDict _ => OtherError
  end.

(** [str(v)] *)
Definition py_str (rt : runtime) (v : value) : string :=
  match v with
  | VNone => "None"
  | VBool true => "True"
  | VBool false => "False"
  | VInt z => PyStr.of_int z
  | VStr s => s
  | VFloat _ | VList _ | VDict _ => repr rt v
  end.

(** [x in xs] for a list of strings. *)
Definition mem (x : string) (xs : list string) : bool :=
  existsb (String.eqb x) xs.

(** [xs.index(x)] *)
Fixpoint index_of (x : string) (xs : list string) : option nat :=
  match xs with
  | [] => None
  | y :: ys => if String.eqb y x then Some O else option_map S (index_of x ys)
  end.

(** ** Key paths *)

(** ['_'.join(map(str, key_path))]: keys are strings already. *)
Definition widget_id (key_path : list string) : string :=
  PyStr.join "_" key_path.

(** A key without the separator of [widget_id]. *)
Definition no_underscore (key : string) : bool :=
  PyStr.all_chars (fun c => negb (PyStr.code c =? 95)%N) key.

(** ** Widget rendering *)

Inductive widget_kind : Set :=
| Checkbox | NumberInput | Selectbox | TextInput | TextArea.

(** A Streamlit widget call: its [key=], the value it shows, and whether it
    is disabled.  Bounds, steps, labels and help texts are left out. *)
Record widget : Type := {
  w_kind : widget_kind;
  w_key : string;
  w_value : value;
  w_disabled : bool
}.

(** What [render_setting] puts on the page: the bold header of a mapping,
    or a labelled widget, at a nesting level. *)
Inductive element : Type :=
| Header (level : nat) (key : string)
| Field (level : nat) (key : string) (w : widget).

(** The option a select box shows: [options[index]]. *)
Definition selected (options : list string) (candidate : string)
  (default : nat) : string :=
  let index :=
    match index_of candidate options with Some i => i | None => default end in
  nth index options "".

Definition list_keys_textarea : list string :=
  ["sender_email"; "ad_identifiers"; "regular_engagement_skip_senders";
   "serial_numbers"].

Definition newline : string := String "010" "".

Section Editor.

Variable rt : runtime.

(** [render_setting(key_path, value, level)].  [key_path] is never empty
    at a call.  The text inputs of a [group_id], of a path or file and of
    any other string differ in label and help text only, and so make one
    branch here; so do the two number inputs. *)
Fixpoint render_setting (key_path : list string) (value : value) (level : nat)
  : list element :=
  let key := List.last key_path "" in
  let unique_key := widget_id key_path in
  let field kind shown disabled :=
    [Field level key
       {| w_kind := kind; w_key := unique_key; w_value := shown;
          w_disabled := disabled |}] in
  match value with
  | VBool _ => field Checkbox value false
  | VInt _ => field NumberInput value false
  | VFloat _ => field NumberInput value false
  | VStr s =>
      if String.eqb key "mode" then
        field Selectbox (VStr (selected ["prod"; "dev"] s 0)) false
      else if String.eqb key "log_level" then
        field Selectbox
          (VStr (selected ["debug"; "info"; "warning"; "error"; "critical"]
                   (PyStr.lower s) 1)) false
      else field TextInput (VStr s) false
  | VList l =>
      if mem key list_keys_textarea then
        field TextArea (VStr (PyStr.join newline (map (py_str rt) l))) false
      else if String.eqb key "session_types" && PYYAML_AVAILABLE rt
              && forallb is_dict l then
        match yaml_dump rt l with
        | Some yaml_text => field TextArea (VStr yaml_text) false
        | None => field TextInput (VStr (py_str rt value)) true
        end
      else field TextInput (VStr (py_str rt value)) true
  | VDict d =>
      Header level key
      :: flat_map
           (fun item : string * _ =>
              render_setting (key_path ++ [fst item]) (snd item) (S level))
           d
  | VNone =>
      if String.eqb key "group_id" then field TextInput (VStr "") false
      else field TextInput (VStr "None") true
  end.

Definition common_keys : list string :=
  ["global"; "google_sheets"; "newsletters"; "engagement"; "query_settings"].

(** The form of the page: the common top-level keys first, in their fixed
    order, the entries of a [newsletters] mapping one by one, and then every
    other top-level key. *)
Definition render_page (settings : list (string * value)) : list element :=
  flat_map
    (fun top_key =>
       match dict_get top_key settings with
       | None => []
       | Some v =>
           match v with
           | VDict d =>
               if String.eqb top_key "newsletters" then
                 flat_map
                   (fun item : string * _ =>
                      render_setting [top_key; fst item] (snd item) 1)
                   d
               else render_setting [top_key] v 0
           | _ => render_setting [top_key] v 0
           end
       end)
    common_keys
  ++ flat_map
       (fun top_key =>
          match dict_get top_key settings with
          | None => []
          | Some v => render_setting [top_key] v 0
          end)
       (List.filter (fun k => negb (mem k common_keys)) (map fst settings)).

(** The widgets of a page, in the order they are created. *)
Fixpoint widgets (page : list element) : list widget :=
  match page with
  | [] => []
  | Header _ _ :: rest => widgets rest
  | Field _ _ w :: rest => w :: widgets rest
  end.


(** ** Rebuild *)

(** What the rebuild reports.  [InvalidSerial], [ListReverted] and
    [UnhandledType] are the [logging.warning] calls of the three branches;
    [InvalidInput] is the [except ValueError] handler and [ProcessingError]
    the [except Exception] handler (each an [st.error] and a
    [logging.warning]). *)
Inductive diagnostic : Type :=
| InvalidSerial (stripped_line widget_key : string)
| ListReverted (key widget_key : string)
| UnhandledType (key : string) (widget_value : value)
| InvalidInput (key widget_key : string) (widget_value : value)
| ProcessingError (key widget_key : string) (widget_value : value).

(** What the rebuild does besides building the dict: it asks the session
    state for a widget key, and it reports diagnostics.  Each event is
    kept with the key path being visited. *)
Inductive event : Type :=
| Lookup (widget_key : string)
| Report (d : diagnostic).

Definition trace : Type := list (list string * event).

(** The [serial_numbers] loop: [processed_list] and the warnings logged so
    far are threaded through the lines; [int()] may raise. *)
Fixpoint parse_serials (widget_key : string) (lines : list string)
  (processed_list : list value) (log : list diagnostic)
  : list diagnostic * outcome (list value) :=
  match lines with
  | [] => (log, Ok processed_list)
  | line :: rest =>
      let stripped_line := PyStr.strip line in
      if PyStr.isdigit stripped_line then
        match PyStr.to_int stripped_line with
        | Some z =>
            parse_serials widget_key rest (processed_list ++ [VInt z]) log
        | None => (log, ValueError)
        end
      else if negb (PyStr.is_empty stripped_line) then
        parse_serials widget_key rest processed_list
          (log ++ [InvalidSerial stripped_line widget_key])
      else parse_serials widget_key rest processed_list log
  end.

Definition map_outcome {A B : Type} (f : A -> B) (r : outcome A) : outcome B :=
  match r with
  | Ok a => Ok (f a)
  | ValueError => ValueError
  | OtherError => OtherError
  end.

(** The body of the [try]: the value to assign, or the exception raised,
    with the warnings logged on the way. *)
Definition coerce (key widget_key : string) (original_value widget_value : value)
  : list diagnostic * outcome value :=
  match original_value with
  | VBool _ => ([], Ok (VBool (py_bool widget_value)))
  | VInt _ => ([], map_outcome VInt (py_int widget_value))
  | VFloat _ => ([], map_outcome VFloat (py_float rt widget_value))
  | _ =>
      if String.eqb key "group_id" then
        let stripped := PyStr.strip (py_str rt widget_value) in
        ([], Ok (if PyStr.is_empty stripped then VNone else VStr stripped))
      else
        match original_value with
        | VStr _ => ([], Ok (VStr (py_str rt widget_value)))
        | VList _ =>
            if mem key ["sender_email"; "ad_identifiers";
                        "regular_engagement_skip_senders"] then
              ([], Ok (VList
                         (map (fun line => VStr (PyStr.strip line))
                            (List.filter
                               (fun line => negb (PyStr.is_empty (PyStr.strip line)))
                               (PyStr.splitlines (py_str rt widget_value))))))
            else if String.eqb key "serial_numbers" then
              let (log, r) :=
                parse_serials widget_key
                  (PyStr.splitlines (py_str rt widget_value)) [] [] in
              (log, map_outcome VList r)
            else if String.eqb key "session_types" && PYYAML_AVAILABLE rt then
              ([], map_outcome
                     (fun parsed_yaml =>
                        match parsed_yaml with
                        | VList _ => parsed_yaml
                        | _ => original_value
                        end)
                     (yaml_safe_load rt (py_str rt widget_value)))
            else ([ListReverted key widget_key], Ok original_value)
        | VNone => ([], Ok VNone)
        | _ => ([UnhandledType key widget_value], Ok widget_value)
        end
  end.

(** The [try] statement with its two handlers: on an exception the
    original value is restored and the failure reported. *)
Definition rebuild_leaf (key widget_key : string)
  (original_value widget_value : value) : value * list diagnostic :=
  let (log, r) := coerce key widget_key original_value widget_value in
  match r with
  | Ok v => (v, log)
  | ValueError =>
      (original_value, log ++ [InvalidInput key widget_key widget_value])
  | OtherError =>
      (original_value, log ++ [ProcessingError key widget_key widget_value])
  end.

Variable session_state : gmap string value.

(** One item of the loop, once the value is known not to be a dict: what
    is assigned to [updated_dict[key]], and the events. *)
Definition rebuild_item (current_key_path : list string) (key : string)
  (original_value : value) : value * trace :=
  let widget_key := widget_id current_key_path in
  match session_state !! widget_key with
  | Some widget_value =>
      let (v, log) := rebuild_leaf key widget_key original_value widget_value in
      (v, (current_key_path, Lookup widget_key)
          :: map (fun d => (current_key_path, Report d)) log)
  | None => (original_value, [(current_key_path, Lookup widget_key)])
  end.

(** [build_updated_settings(original_data_structure, key_path)], with the
    events of the traversal. *)
Fixpoint build_updated_settings (original_data_structure : value)
  (key_path : list string) : value * trace :=
  match original_data_structure with
  | VDict items =>
      let step (acc : list (string * value) * trace) (item : string * value) :=
        let key := fst item in
        let original_value := snd item in
        let current_key_path := key_path ++ [key] in
        let r :=
          match original_value with
          | VDict _ => build_updated_settings original_value current_key_path
          | _ => rebuild_item current_key_path key original_value
          end in
        (dict_set key (fst r) (fst acc), snd acc ++ snd r) in
      let r := fold_left step items ([], []) in
      (VDict (fst r), snd r)
  | _ => (original_data_structure, [])
  end.

End Editor.

(** ** Settings trees and paths *)

Fixpoint distinct (xs : list string) : bool :=
  match xs with
  | [] => true
  | x :: rest => negb (mem x rest) && distinct rest
  end.

(** A settings tree is a value in which the keys of every mapping are
    pairwise distinct, as the keys of a Python dict are. *)
Fixpoint wf_value (v : value) : bool :=
  match v with
  | VDict d =>
      distinct (map fst d) && forallb (fun item => wf_value (snd item)) d
  | _ => true
  end.

(** [tree[k1][k2]...[kn]] *)
Fixpoint lookup_path (v : value) (path : list string) : option value :=
  match path with
  | [] => Some v
  | k :: rest =>
      match v with
      | VDict d =>
          match dict_get k d with
          | Some x => lookup_path x rest
          | None => None
          end
      | _ => None
      end
  end.

(** [path] leads to a leaf of the tree: a value that is not a mapping,
    below the root. *)
Definition leaf_at (tree : value) (path : list string) (v : value) : Prop :=
  lookup_path tree path = Some v /\ is_dict v = false /\ path <> [].

(** The diagnostics reported while the rebuild visits [path]. *)
Fixpoint reports_at (path : list string) (t : trace) : list diagnostic :=
  match t with
  | [] => []
  | (p, Report d) :: rest =>
      if decide (p = path) then d :: reports_at path rest
      else reports_at path rest
  | (_, Lookup _) :: rest => reports_at path rest
  end.

(** The widget keys the rebuild asks the session state for, in order. *)
Fixpoint lookups (t : trace) : list string :=
  match t with
  | [] => []
  | (_, Lookup k) :: rest => k :: lookups rest
  | (_, Report _) :: rest => lookups rest
  end.

(** The same keys, in the same order, at every level of nesting. *)
Inductive same_keys : value -> value -> Prop :=
| same_keys_leaf (a b : value) :
    is_dict a = false -> is_dict b = false -> same_keys a b
| same_keys_dict (d d' : list (string * value)) :
    Forall2 (fun x y => fst x = fst y /\ same_keys (snd x) (snd y)) d d' ->
    same_keys (VDict d) (VDict d').


Section Items.

Variable rt : runtime.
Variable session_state : gmap string value.

(** What the loop of [build_updated_settings] computes for one item of a
    mapping at [key_path]: the value assigned and the events. *)
Definition rebuild_entry (key_path : list string) (item : string * value)
  : value * trace :=
  match snd item with
  | VDict _ =>
      build_updated_settings rt session_state (snd item) (key_path ++ [fst item])
  | _ =>
      rebuild_item rt session_state (key_path ++ [fst item]) (fst item) (snd item)
  end.

(** What the rebuild started at [key_path] computes for the node [v] it
    finds [path] further down. *)
Definition rebuild_at (key_path path : list string) (v : value) : value * trace :=
  match v with
  | VDict _ => build_updated_settings rt session_state v (key_path ++ path)
  | _ =>
      match path with
      | [] => (v, [])
      | _ => rebuild_item rt session_state (key_path ++ path) (List.last path "") v
      end
  end.

End Items.


(** The root of a settings tree is a mapping. *)
Definition settings_tree (v : value) : bool := is_dict v && wf_value v.

(** ** Round trips *)


Definition no_linebreak (c : ascii) : bool := negb (PyStr.is_linebreak c).

(** A string that a one-per-line text area gives back as it is: not
    empty, on one line, without surrounding whitespace. *)
Definition is_plain_str (v : value) : bool :=
  match v with
  | VStr s =>
      negb (PyStr.is_empty s) && PyStr.all_chars no_linebreak s
      && String.eqb (PyStr.strip s) s
  | _ => false
  end.






(** ** Sample data *)

(** A runtime for the examples.  It answers as CPython and PyYAML do on
    the few inputs it lists; the examples consult it on no other input. *)
Definition sample_runtime : runtime := {|
  PYYAML_AVAILABLE := true;
  yaml_safe_load := fun text =>
    if String.eqb text "foo: 1" then Ok (VDict [("foo", VInt 1)])
    else if String.eqb text (String.append "- name: a" newline)
    then Ok (VList [VDict [("name", VStr "a")]])
    else OtherError;
  yaml_dump := fun l =>
    match l with
    | [VDict [(k, VStr s)]] =>
        if String.eqb k "name" && String.eqb s "a"
        then Some (String.append "- name: a" newline) else None
    | _ => None
    end;
  float_of_str := fun s => if String.eqb s "0.5" then Some 0.5%float else None;
  repr := fun v =>
    match v with
    | VFloat f => if PrimFloat.eqb f 0.5%float then "0.5" else "?"
    | VList [] => "[]"
    | VDict [] => "{}"
    | _ => "?"
    end
|}.

Definition lines (parts : list string) : string := PyStr.join newline parts.

Definition sample_settings : list (string * value) :=
  [("global",
    VDict [("threads", VInt 2); ("mode", VStr "prod"); ("dry_run", VBool false);
           ("success_rate", VFloat 0.5%float)]);
   ("ad_identifiers", VList [VStr "a"; VStr "b"]);
   ("serial_numbers", VList [VInt 1; VInt 2]);
   ("group_id", VStr "abc123");
   ("session_types", VList [VDict [("name", VStr "a")]]);
   ("notes", VNone)].

Definition sample_tree : value := VDict sample_settings.

(** An edit of [sample_tree]: a non-numeric thread count, a ticked box,
    serial numbers with a bad line, an emptied group id. *)
Definition sample_edits : gmap string value :=
  <["global_threads" := VStr "abc"]>
    (<["global_dry_run" := VStr "yes"]>
       (<["serial_numbers" := VStr (lines ["3"; "xx"; "4"])]>
          (<["group_id" := VStr ""]> ∅))).

(** Two leaves of this tree get the same widget key. *)
Definition colliding_tree : value :=
  VDict [("a_b", VInt 1); ("a", VDict [("b", VInt 2)])].

(** The superscript two, U+00B2. *)
Definition superscript_two : string := String (ascii_of_N 178) "".

Definition serial_tree : value := VDict [("serial_numbers", VList [VInt 1; VInt 2])].




(** ** Keys without the separator *)

(** No key of the tree, at any level of nesting, holds the separator of
    [widget_id]. *)
Fixpoint plain_keys (v : value) : bool :=
  match v with
  | VDict d =>
      forallb (fun item => no_underscore (fst item) && plain_keys (snd item)) d
  | _ => true
  end.

Definition nested_tree : value :=
  VDict [("bot", VDict [("mode", VStr "prod"); ("retries", VInt 3)]);
         ("botmode", VStr "dev")].

(** ** Bounds of the number inputs *)

#[local] Set Warnings "-inexact-float".

(** [sub in s] for strings. *)
Fixpoint contains (sub s : string) : bool :=
  String.prefix sub s
  || match s with
     | EmptyString => false
     | String _ rest => contains sub rest
     end.

(** The [min_value] and [max_value] that [render_setting] gives the number
    input of an int (its step is 1): the three [if] statements in their
    order, each overriding what the earlier ones set. *)
Definition int_input_bounds (key : string) : option Z * option Z :=
  let '(min_val, max_val) := (@None Z, @None Z) in
  let '(min_val, max_val) :=
    if String.eqb key "threads" then (Some 1, Some 4) else (min_val, max_val) in
  let min_val :=
    if contains "interval" key || contains "wait" key || contains "age" key
    then Some 0 else min_val in
  let min_val :=
    if String.eqb key "backup_interval" then Some 5 else min_val in
  (min_val, max_val).

(** The [min_value], [max_value] and [step] of the number input of a
    float. *)
Definition float_input_bounds (key : string)
  : option float * option float * float :=
  if contains "rate" key || contains "ctr" key || contains "probability" key
  then (Some 0%float, Some 1%float, 0.01%float)
  else if String.eqb key "random_variance"
  then (Some 0%float, Some 1%float, 0.05%float)
  else (None, None, 0.01%float).

(** ** The API client *)

(** An exception as the handlers of the client see it: the name of its
    type, whether it is a [requests] [RequestException], whether it is a
    [json.JSONDecodeError], and the text that
    [e.response.json().get('error', e.response.text)] formats to, if that
    expression raises nothing. *)
Record exception : Type := {
  exc_name : string;
  exc_request : bool;
  exc_json : bool;
  exc_response_error : option string
}.

(** What the body of the [try] statements comes to: an exception out of
    the request, [raise_for_status] or [response.json()], or the decoded
    JSON body. *)
Inductive reply : Type :=
| Failed (e : exception)
| Answered (body : value).

(** A call returns or lets an exception through. *)
Inductive result (A : Type) : Type :=
| Returned (a : A)
| Raised (e : exception).

Arguments Returned {A} a.
Arguments Raised {A} e.

(** [error_detail]: the type name, then the detail of the response if it
    could be read. *)
Definition error_detail (e : exception) : string :=
  match exc_response_error e with
  | Some detail => String.append (exc_name e) (String.append ": " detail)
  | None => exc_name e
  end.

(** [not BOT_API_URL]: the secret is missing or empty. *)
Definition no_url (BOT_API_URL : option string) : bool :=
  match BOT_API_URL with
  | None => true
  | Some url => PyStr.is_empty url
  end.

Definition api_endpoint (BOT_API_URL : option string) : string :=
  match BOT_API_URL with
  | Some url => String.append url "/settings"
  | None => "None/settings"
  end.

(** [fetch_settings_data_from_api()], given what the GET request comes
    to.  The settings are returned as the items of the dict.  The cache
    decorator is left out: for a result served from the cache, [get] is
    what the request of the cached call came to. *)
Definition fetch_settings_data_from_api (BOT_API_URL : option string)
  (get : string -> reply)
  : result (option (list (string * value)) * option string) :=
  if no_url BOT_API_URL then
    Returned (None, Some "BOT_API_URL secret is not configured.")
  else
    match get (api_endpoint BOT_API_URL) with
    | Answered (VDict settings_data) => Returned (Some settings_data, None)
    | Answered _ =>
        Returned (None, Some "API Error: Invalid settings format received.")
    | Failed e =>
        if exc_request e then
          Returned
            (None,
             Some (String.append "API Error fetching settings: " (error_detail e)))
        else if exc_json e then
          Returned (None, Some "Invalid settings JSON response from API.")
        else Raised e
    end.

(** What [x.get(...)] raises when [x] is not a dict. *)
Definition attribute_error : exception :=
  {| exc_name := "AttributeError"; exc_request := false; exc_json := false;
     exc_response_error := None |}.

(** [save_settings_via_api(settings_data)], given what the POST request
    comes to. *)
Definition save_settings_via_api (BOT_API_URL : option string)
  (post : string -> value -> reply) (settings_data : value)
  : result (bool * value) :=
  if no_url BOT_API_URL then Returned (false, VStr "BOT_API_URL not set.")
  else
    match post (api_endpoint BOT_API_URL) settings_data with
    | Answered (VDict body) =>
        Returned
          (true,
           match dict_get "message" body with
           | Some message => message
           | None => VStr "Settings saved successfully."
           end)
    | Answered _ => Raised attribute_error
    | Failed e =>
        if exc_request e then
          Returned
            (false,
             VStr (String.append "API Error saving settings: " (error_detail e)))
        else if exc_json e then
          Returned (false, VStr "Invalid JSON response from API after saving.")
        else Raised e
    end.

(** ** One run of the page script *)

(** The session state of the page: its two variables, and the entries of
    the widgets.  A settings dict is kept as its items. *)
Record session : Type := {
  current_settings_data : option (list (string * value));
  settings_fetch_error : option string;
  widget_state : gmap string value
}.

(** [st.session_state] as [build_updated_settings] reads it: the two
    variables are entries like any other. *)
Definition session_view (s : session) : gmap string value :=
  <["current_settings_data" :=
      match current_settings_data s with
      | Some d => VDict d
      | None => VNone
      end]>
    (<["settings_fetch_error" :=
         match settings_fetch_error s with
         | Some message => VStr message
         | None => VNone
         end]>
       (widget_state s)).

(** Both variables set to [None], as after a save, a retry or a reload. *)
Definition cleared (s : session) : session :=
  {| current_settings_data := None; settings_fetch_error := None;
     widget_state := widget_state s |}.

(** Truth value of an error message or [None]. *)
Definition is_error (error : option string) : bool :=
  match error with
  | Some message => negb (PyStr.is_empty message)
  | None => false
  end.

(** Which buttons report a click in this run. *)
Record clicks : Type := {
  retry_clicked : bool;
  submitted : bool;
  reload_clicked : bool
}.

(** What a run puts on the page: the error of a missing URL, the error of
    a failed load, the form, the field errors of the rebuild's handlers,
    the outcome of a save, the waiting notice.  Titles, dividers, spinners
    and the warning about the API key are left out. *)
Inductive notice : Type :=
| NotConfigured
| LoadFailed (message : string)
| Form (page : list element)
| FieldError (d : diagnostic)
| Saved (message : value)
| SaveFailed (message : value)
| Waiting.

(** The calls of the two functions of the API client. *)
Inductive api_call : Type :=
| Fetch
| Save (payload : value).

(** How a run ends: [st.rerun()], [st.stop()], the end of the script, or
    an exception nothing catches. *)
Inductive run_end : Type :=
| Rerun
| Stop
| Done
| Crashed (e : exception).

Record run : Type := {
  after : session;
  shown : list notice;
  calls : list api_call;
  ending : run_end
}.

(** The [st.error] calls of a rebuild: those of its two handlers. *)
Fixpoint field_errors (t : trace) : list notice :=
  match t with
  | [] => []
  | (_, Report (InvalidInput k w v)) :: rest =>
      FieldError (InvalidInput k w v) :: field_errors rest
  | (_, Report (ProcessingError k w v)) :: rest =>
      FieldError (ProcessingError k w v) :: field_errors rest
  | _ :: rest => field_errors rest
  end.

Section PageScript.

Variable rt : runtime.
Variable BOT_API_URL : option string.
Variable get : string -> reply.
Variable post : string -> value -> reply.

(** The end of the script: the reload button. *)
Definition reload_step (clicked : clicks) (s : session) (notices : list notice)
  (made : list api_call) : run :=
  if reload_clicked clicked then
    {| after := cleared s; shown := notices; calls := made; ending := Rerun |}
  else {| after := s; shown := notices; calls := made; ending := Done |}.

(** The form and its submit button, for settings that are not empty. *)
Definition form_step (clicked : clicks) (s : session)
  (settings : list (string * value)) : run :=
  let form := [Form (render_page rt settings)] in
  if submitted clicked then
    let rebuilt :=
      build_updated_settings rt (session_view s) (VDict settings) [] in
    let updated_settings := fst rebuilt in
    let notices := form ++ field_errors (snd rebuilt) in
    match save_settings_via_api BOT_API_URL post updated_settings with
    | Raised e =>
        {| after := s; shown := notices; calls := [Save updated_settings];
           ending := Crashed e |}
    | Returned (true, message) =>
        {| after := cleared s; shown := notices ++ [Saved message];
           calls := [Save updated_settings]; ending := Rerun |}
    | Returned (false, message) =>
        reload_step clicked s (notices ++ [SaveFailed message])
          [Save updated_settings]
    end
  else reload_step clicked s form [].

(** The script from the check of the URL to its end, as one run: from
    the session state and the clicks to the new session state, what is
    shown, the API calls made and how the run ends. *)
Definition page_run (clicked : clicks) (s : session) : run :=
  if no_url BOT_API_URL then
    {| after := s; shown := [NotConfigured]; calls := []; ending := Stop |}
  else
    match current_settings_data s, settings_fetch_error s with
    | None, None =>
        match fetch_settings_data_from_api BOT_API_URL get with
        | Raised e =>
            {| after := s; shown := []; calls := [Fetch]; ending := Crashed e |}
        | Returned (settings_data, error) =>
            {| after :=
                 if is_error error then
                   {| current_settings_data := None;
                      settings_fetch_error := error;
                      widget_state := widget_state s |}
                 else
                   {| current_settings_data := settings_data;
                      settings_fetch_error := None;
                      widget_state := widget_state s |};
               shown := []; calls := [Fetch]; ending := Rerun |}
        end
    | _, _ =>
        if is_error (settings_fetch_error s) then
          let notices :=
            [LoadFailed
               (match settings_fetch_error s with Some m => m | None => "" end)] in
          if retry_clicked clicked then
            {| after := cleared s; shown := notices; calls := [];
               ending := Rerun |}
          else {| after := s; shown := notices; calls := []; ending := Stop |}
        else
          match current_settings_data s with
          | Some (item :: items) => form_step clicked s (item :: items)
          | _ =>
              reload_step clicked s
                (if is_error (settings_fetch_error s) then [] else [Waiting]) []
          end
    end.

End PageScript.

(** The session of a first visit. *)
Definition fresh_session : session :=
  {| current_settings_data := None; settings_fetch_error := None;
     widget_state := ∅ |}.


(** The session with the widget entries that a run starts with.  The
    script assigns the two variables only; the entries of the widgets are
    kept by Streamlit, which between two runs adds those of the widgets
    shown and drops those of the widgets no longer shown. *)
Definition with_widgets (s : session) (entries : gmap string value) : session :=
  {| current_settings_data := current_settings_data s;
     settings_fetch_error := settings_fetch_error s;
     widget_state := entries |}.




Definition sample_url : option string := Some "http://bot:5000".

Definition no_clicks : clicks :=
  {| retry_clicked := false; submitted := false; reload_clicked := false |}.

Definition submit_click : clicks :=
  {| retry_clicked := false; submitted := true; reload_clicked := false |}.

Definition connection_error : exception :=
  {| exc_name := "ConnectionError"; exc_request := true; exc_json := false;
     exc_response_error := None |}.

(** * Properties *)

(** ** Dicts as item lists *)

Lemma mem_In (x : string) (xs : list string) : mem x xs = true <-> In x xs.
Proof.
  unfold mem. rewrite existsb_exists. split.
  - intros (y & Hy & Heq). apply String.eqb_eq in Heq. now subst.
  - intros Hx. exists x. split; [assumption | apply String.eqb_refl].
Qed.

Lemma distinct_NoDup (xs : list string) : distinct xs = true -> List.NoDup xs.
Proof.
  induction xs as [| x xs IH]; simpl; intros H.
  - constructor.
  - apply andb_prop in H as [Hx Hd]. constructor; [| auto].
    intros Hin. apply mem_In in Hin. rewrite Hin in Hx. discriminate.
Qed.

Lemma dict_get_In (key : string) (d : list (string * value)) (v : value) :
  dict_get key d = Some v -> In (key, v) d.
Proof.
  induction d as [| [k x] d IH]; simpl; [discriminate |].
  destruct (String.eqb_spec k key) as [-> | Hne].
  - intros [= ->]. now left.
  - intros H. right. auto.
Qed.


Lemma In_dict_get (key : string) (d : list (string * value)) (v : value) :
  List.NoDup (map fst d) -> In (key, v) d -> dict_get key d = Some v.
Proof.
  induction d as [| [k x] d IH]; simpl; [tauto |].
  intros Hnd [Heq | Hin].
  - injection Heq as -> ->. now rewrite String.eqb_refl.
  - inversion Hnd as [| ? ? Hk Hd]; subst.
    destruct (String.eqb_spec k key) as [-> | Hne].
    + exfalso. apply Hk. change key with (fst (key, v)). now apply in_map.
    + auto.
Qed.

Lemma dict_set_fresh (key : string) (v : value) (d : list (string * value)) :
  ~ In key (map fst d) -> dict_set key v d = d ++ [(key, v)].
Proof.
  induction d as [| [k x] d IH]; simpl; [reflexivity |].
  intros H. destruct (String.eqb_spec k key) as [-> | Hne].
  - exfalso. apply H. now left.
  - f_equal. apply IH. intros Hin. apply H. now right.
Qed.

(** A loop that assigns one computed value per item of a dict with
    distinct keys builds the items in order. *)
Lemma assign_loop (f : string * value -> value * trace)
  (items : list (string * value)) :
  forall (done : list (string * value)) (t : trace),
    List.NoDup (map fst done ++ map fst items) ->
    fold_left
      (fun acc item =>
         (dict_set (fst item) (fst (f item)) (fst acc), snd acc ++ snd (f item)))
      items (done, t)
    = (done ++ map (fun item => (fst item, fst (f item))) items,
       t ++ concat (map (fun item => snd (f item)) items)).
Proof.
  induction items as [| item items IH]; intros done t Hnd; simpl.
  - now rewrite !app_nil_r.
  - rewrite dict_set_fresh.
    + rewrite IH.
      * now rewrite <- !app_assoc.
      * rewrite map_app. simpl. rewrite <- app_assoc. exact Hnd.
    + intros Hin. apply NoDup_remove_2 in Hnd. apply Hnd.
      apply in_or_app. now left.
Qed.

(** ** The rebuild, item by item *)

Section Rebuild.

Variable rt : runtime.
Variable session_state : gmap string value.

Lemma build_dict (items : list (string * value)) (key_path : list string) :
  List.NoDup (map fst items) ->
  build_updated_settings rt session_state (VDict items) key_path
  = (VDict (map (fun item => (fst item, fst (rebuild_entry rt session_state key_path item))) items),
     concat (map (fun item => snd (rebuild_entry rt session_state key_path item)) items)).
Proof.
  intros Hnd.
  change (build_updated_settings rt session_state (VDict items) key_path)
    with (let r :=
            fold_left
              (fun acc item =>
                 (dict_set (fst item) (fst (rebuild_entry rt session_state key_path item)) (fst acc),
                  snd acc ++ snd (rebuild_entry rt session_state key_path item)))
              items ([], []) in
          (VDict (fst r), snd r)).
  simpl. now rewrite (assign_loop (rebuild_entry rt session_state key_path)).
Qed.


Lemma value_tree_ind (P : value -> Prop) :
  (forall v, is_dict v = false -> P v) ->
  (forall d, Forall (fun item => P (snd item)) d -> P (VDict d)) ->
  forall v, P v.
Proof.
  intros Hleaf Hdict. fix IH 1.
  intros [| b | z | f | s | l | d]; try (apply Hleaf; reflexivity).
  apply Hdict. induction d as [| [k x] d IHd]; constructor.
  - apply IH.
  - exact IHd.
Qed.

Lemma wf_dict (d : list (string * value)) :
  wf_value (VDict d) = true ->
  List.NoDup (map fst d) /\ forall item, In item d -> wf_value (snd item) = true.
Proof.
  simpl. intros H. apply andb_prop in H as [Hd Hall]. split.
  - now apply distinct_NoDup.
  - intros item Hin. rewrite forallb_forall in Hall. now apply Hall.
Qed.

Lemma dict_get_map (g : string * value -> value) (key : string)
  (d : list (string * value)) :
  dict_get key (map (fun item => (fst item, g item)) d)
  = option_map (fun x => g (key, x)) (dict_get key d).
Proof.
  induction d as [| [k x] d IH]; simpl; [reflexivity |].
  destruct (String.eqb_spec k key) as [-> | Hne]; [reflexivity | exact IH].
Qed.

Lemma lookup_path_leaf (v : value) (path : list string) (x : value) :
  is_dict v = false -> lookup_path v path = Some x -> path = [] /\ x = v.
Proof.
  destruct path as [| k rest]; simpl.
  - intros _ [= <-]. now split.
  - destruct v; simpl; discriminate.
Qed.

Lemma last_cons (k : string) (rest : list string) :
  rest <> [] -> List.last (k :: rest) "" = List.last rest "".
Proof. destruct rest; [congruence | reflexivity]. Qed.

(** The node at a path of the rebuilt tree is the rebuild of the node at
    that path of the original tree. *)
Lemma lookup_rebuilt (path : list string) :
  forall (tree : value) (key_path : list string) (v : value),
    wf_value tree = true ->
    lookup_path tree path = Some v ->
    lookup_path (fst (build_updated_settings rt session_state tree key_path)) path
    = Some (fst (rebuild_at rt session_state key_path path v)).
Proof.
  induction path as [| k rest IH]; intros tree key_path v Hwf Hlook.
  - simpl in Hlook. injection Hlook as <-. simpl.
    unfold rebuild_at. rewrite app_nil_r. now destruct tree.
  - destruct tree as [| | | | | | d]; try discriminate.
    apply wf_dict in Hwf as [Hnd Hall].
    rewrite build_dict by assumption. simpl in Hlook |- *.
    rewrite dict_get_map.
    destruct (dict_get k d) as [x |] eqn:Hget; [| discriminate]. simpl.
    pose proof (Hall _ (dict_get_In _ _ _ Hget)) as Hwfx. simpl in Hwfx.
    unfold rebuild_entry. simpl.
    destruct (is_dict x) eqn:Hx.
    + destruct x; try discriminate.
      rewrite (IH _ (key_path ++ [k]) v Hwfx Hlook).
      replace (rebuild_at rt session_state (key_path ++ [k]) rest v)
        with (rebuild_at rt session_state key_path (k :: rest) v); [reflexivity |].
      unfold rebuild_at. rewrite <- app_assoc. simpl.
      destruct v; try reflexivity;
        (destruct rest as [| k' rest']; [simpl in Hlook; discriminate | reflexivity]).
    + destruct (lookup_path_leaf _ _ _ Hx Hlook) as [-> ->].
      destruct x; try discriminate; reflexivity.
Qed.

End Rebuild.

(** ** Events of the rebuild *)

Section Events.

Variable rt : runtime.
Variable session_state : gmap string value.

Lemma reports_at_app (path : list string) (a b : trace) :
  reports_at path (a ++ b) = reports_at path a ++ reports_at path b.
Proof.
  induction a as [| [p [k | d]] a IH]; simpl; [reflexivity | exact IH |].
  destruct (decide (p = path)); simpl; now rewrite IH.
Qed.

Lemma reports_at_off (path : list string) (t : trace) :
  (forall p e, In (p, e) t -> p <> path) -> reports_at path t = [].
Proof.
  induction t as [| [p [k | d]] t IH]; simpl; intros H; [reflexivity | |].
  - apply IH. intros q e Hin. apply (H q e). now right.
  - destruct (decide (p = path)) as [Heq | _].
    + exfalso. apply (H p (Report d)); [now left | exact Heq].
    + apply IH. intros q e Hin. apply (H q e). now right.
Qed.

Lemma reports_at_tagged (path : list string) (log : list diagnostic) :
  reports_at path (map (fun d => (path, Report d)) log) = log.
Proof.
  induction log as [| d log IH]; cbn [map reports_at]; [reflexivity |].
  destruct (decide (path = path)); [now rewrite IH | congruence].
Qed.

Lemma item_tags (current_key_path : list string) (key : string) (v : value)
  (p : list string) (e : event) :
  In (p, e) (snd (rebuild_item rt session_state current_key_path key v)) ->
  p = current_key_path.
Proof.
  unfold rebuild_item.
  destruct (session_state !! widget_id current_key_path) as [w |].
  - destruct (rebuild_leaf rt key (widget_id current_key_path) v w) as [x log].
    simpl. intros [[= <- _] | Hin]; [reflexivity |].
    apply in_map_iff in Hin as (d & [= <- _] & _). reflexivity.
  - simpl. intros [[= <- _] | []]. reflexivity.
Qed.

(** Every event of a rebuild started at [key_path] is tagged with a path
    strictly below [key_path]. *)
Lemma build_tags (tree : value) :
  forall (key_path p : list string) (e : event),
    wf_value tree = true ->
    In (p, e) (snd (build_updated_settings rt session_state tree key_path)) ->
    exists k rest, p = key_path ++ k :: rest.
Proof.
  induction tree as [v Hleaf | d IH] using value_tree_ind;
    intros key_path p e Hwf Hin.
  - destruct v; try discriminate; destruct Hin.
  - apply wf_dict in Hwf as [Hnd Hall].
    rewrite build_dict in Hin by assumption. simpl in Hin.
    apply in_concat in Hin as (t & Ht & Hin).
    apply in_map_iff in Ht as ([key x] & <- & Hitem).
    rewrite List.Forall_forall in IH.
    pose proof (Hall _ Hitem) as Hwfx. unfold rebuild_entry in Hin.
    simpl in Hin, Hwfx.
    destruct (is_dict x) eqn:Hx.
    + destruct x; try discriminate.
      apply (IH _ Hitem) in Hin as (k & rest & ->); [| assumption].
      exists key, (k :: rest). now rewrite <- app_assoc.
    + exists key, []. destruct x; try discriminate; now apply item_tags in Hin.
Qed.

Lemma entry_tags (key_path : list string) (item : string * value)
  (p : list string) (e : event) :
  wf_value (snd item) = true ->
  In (p, e) (snd (rebuild_entry rt session_state key_path item)) ->
  exists rest, p = key_path ++ fst item :: rest.
Proof.
  intros Hwf Hin. unfold rebuild_entry in Hin.
  destruct (is_dict (snd item)) eqn:Hx.
  - destruct (snd item); try discriminate.
    apply build_tags in Hin as (k & rest & ->); [| assumption].
    exists (k :: rest). now rewrite <- app_assoc.
  - exists []. destruct (snd item); try discriminate; now apply item_tags in Hin.
Qed.

Lemma reports_other_items (key_path : list string) (k : string)
  (rest : list string) (d : list (string * value)) :
  (forall item, In item d -> wf_value (snd item) = true) ->
  ~ In k (map fst d) ->
  reports_at (key_path ++ k :: rest)
    (concat (map (fun item => snd (rebuild_entry rt session_state key_path item)) d))
  = [].
Proof.
  intros Hall Hk. apply reports_at_off. intros p e Hin Heq.
  apply in_concat in Hin as (t & Ht & Hin).
  apply in_map_iff in Ht as (item & <- & Hitem).
  apply entry_tags in Hin as (rest' & ->); [| now apply Hall].
  apply app_inv_head in Heq. injection Heq as Heq _.
  apply Hk. rewrite <- Heq. now apply in_map.
Qed.

Lemma reports_of_item (key_path : list string) (k : string)
  (rest : list string) (d : list (string * value)) (x : value) :
  List.NoDup (map fst d) ->
  (forall item, In item d -> wf_value (snd item) = true) ->
  dict_get k d = Some x ->
  reports_at (key_path ++ k :: rest)
    (concat (map (fun item => snd (rebuild_entry rt session_state key_path item)) d))
  = reports_at (key_path ++ k :: rest)
      (snd (rebuild_entry rt session_state key_path (k, x))).
Proof.
  induction d as [| [k0 x0] d IH]; simpl; intros Hnd Hall Hget; [discriminate |].
  inversion Hnd as [| ? ? Hk0 Hnd']; subst.
  rewrite reports_at_app.
  destruct (String.eqb_spec k0 k) as [-> | Hne].
  - injection Hget as ->.
    rewrite reports_other_items; [now rewrite app_nil_r | | assumption].
    intros item Hin. apply Hall. now right.
  - rewrite IH; try assumption.
    + rewrite (reports_at_off _ (snd (rebuild_entry rt session_state key_path (k0, x0))));
        [reflexivity |].
      intros p e Hin Heq.
      apply entry_tags in Hin as (rest' & ->); [| apply (Hall (k0, x0)); now left].
      apply app_inv_head in Heq. injection Heq as Heq _. now apply Hne.
    + intros item Hin. apply Hall. now right.
Qed.

(** The diagnostics reported at a leaf are those of rebuilding that leaf. *)
Lemma reports_rebuilt (path : list string) :
  forall (tree : value) (key_path : list string) (v : value),
    wf_value tree = true ->
    lookup_path tree path = Some v ->
    is_dict v = false ->
    path <> [] ->
    reports_at (key_path ++ path)
      (snd (build_updated_settings rt session_state tree key_path))
    = reports_at (key_path ++ path)
        (snd (rebuild_at rt session_state key_path path v)).
Proof.
  induction path as [| k rest IH]; intros tree key_path v Hwf Hlook Hv Hne;
    [congruence |].
  destruct tree as [| | | | | | d]; try discriminate.
  apply wf_dict in Hwf as [Hnd Hall].
  rewrite build_dict by assumption. simpl in Hlook |- *.
  destruct (dict_get k d) as [x |] eqn:Hget; [| discriminate].
  rewrite (reports_of_item _ _ _ _ x) by assumption.
  pose proof (Hall _ (dict_get_In _ _ _ Hget)) as Hwfx. simpl in Hwfx.
  unfold rebuild_entry. simpl.
  destruct (is_dict x) eqn:Hx.
  - destruct x; try discriminate.
    assert (rest <> []) as Hrest.
    { intros ->. simpl in Hlook. injection Hlook as <-. discriminate. }
    replace (key_path ++ k :: rest) with ((key_path ++ [k]) ++ rest)
      by now rewrite <- app_assoc.
    rewrite (IH _ (key_path ++ [k]) v Hwfx Hlook Hv Hrest).
    unfold rebuild_at.
    destruct v; try discriminate;
      (destruct rest as [| k' rest']; [congruence |]);
      rewrite <- app_assoc; reflexivity.
  - destruct (lookup_path_leaf _ _ _ Hx Hlook) as [-> ->].
    destruct x; try discriminate; reflexivity.
Qed.

End Events.

(** ** Leaves of a settings tree *)

Section Leaves.

Variable rt : runtime.

Lemma leaf_below_root (tree : value) (path : list string) (v : value) :
  settings_tree tree = true ->
  lookup_path tree path = Some v ->
  is_dict v = false ->
  path <> [].
Proof.
  intros Htree Hlook Hv ->. simpl in Hlook. injection Hlook as <-.
  apply andb_prop in Htree as [Hd _]. congruence.
Qed.

Lemma settings_tree_wf (tree : value) :
  settings_tree tree = true -> wf_value tree = true.
Proof. intros H. now apply andb_prop in H as [_ H]. Qed.

(** The value and the diagnostics of a leaf whose widget key is in the
    session state are those of [rebuild_leaf]. *)
Lemma leaf_rebuilt (session_state : gmap string value) (tree : value)
  (path : list string) (v w : value) :
  settings_tree tree = true ->
  lookup_path tree path = Some v ->
  is_dict v = false ->
  session_state !! widget_id path = Some w ->
  let r := rebuild_leaf rt (List.last path "") (widget_id path) v w in
  lookup_path (fst (build_updated_settings rt session_state tree [])) path
  = Some (fst r)
  /\ reports_at path (snd (build_updated_settings rt session_state tree []))
     = snd r.
Proof.
  intros Htree Hlook Hv Hw r.
  pose proof (leaf_below_root _ _ _ Htree Hlook Hv) as Hne.
  pose proof (settings_tree_wf _ Htree) as Hwf.
  rewrite (lookup_rebuilt rt session_state path tree [] v Hwf Hlook).
  pose proof (reports_rebuilt rt session_state path tree [] v Hwf Hlook Hv Hne)
    as Hreports.
  simpl in Hreports. rewrite Hreports. clear Hreports.
  unfold rebuild_at. simpl.
  assert (rebuild_item rt session_state path (List.last path "") v
          = (fst r, (path, Lookup (widget_id path))
                    :: map (fun d => (path, Report d)) (snd r))) as Hitem.
  { unfold rebuild_item. rewrite Hw. subst r.
    now destruct (rebuild_leaf rt (List.last path "") (widget_id path) v w). }
  pose proof (reports_at_tagged path (snd r)) as Hrep.
  destruct v; try discriminate;
    (destruct path as [| k rest]; [congruence |]);
    rewrite Hitem; cbn [fst snd reports_at]; rewrite Hrep; now split.
Qed.

(** A leaf whose widget key is not in the session state keeps its value. *)
Lemma leaf_untouched (session_state : gmap string value) (tree : value)
  (path : list string) (v : value) :
  settings_tree tree = true ->
  lookup_path tree path = Some v ->
  is_dict v = false ->
  session_state !! widget_id path = None ->
  lookup_path (fst (build_updated_settings rt session_state tree [])) path
  = Some v.
Proof.
  intros Htree Hlook Hv Hw.
  pose proof (leaf_below_root _ _ _ Htree Hlook Hv) as Hne.
  rewrite (lookup_rebuilt rt session_state path tree [] v
             (settings_tree_wf _ Htree) Hlook).
  unfold rebuild_at, rebuild_item. simpl. rewrite Hw.
  destruct v; try discriminate; (destruct path; [congruence | reflexivity]).
Qed.

End Leaves.

(** ** Coercion of single leaves *)





Lemma rebuild_item_ext (rt : runtime) (s s' : gmap string value)
  (current_key_path : list string) (key : string) (v : value) :
  s' !! widget_id current_key_path = s !! widget_id current_key_path ->
  rebuild_item rt s' current_key_path key v
  = rebuild_item rt s current_key_path key v.
Proof. intros H. unfold rebuild_item. now rewrite H. Qed.

Lemma build_returns_dict (rt : runtime) (s : gmap string value) (tree : value)
  (key_path : list string) :
  is_dict tree = true ->
  is_dict (fst (build_updated_settings rt s tree key_path)) = true.
Proof. destruct tree; try discriminate. reflexivity. Qed.

(** C6: an int leaf whose edited value is the text "abc" keeps its
    original value, and exactly one diagnostic is reported while the leaf
    is visited; the rebuild still returns a mapping, and the value of every
    other leaf depends on the session state only through that leaf's own
    entry, so it is what it would be had the failing entry held anything
    else. *)
Theorem int_leaf_coercion_failure (rt : runtime)
  (session_state : gmap string value) (tree : value) (path : list string)
  (z : Z) :
  settings_tree tree = true ->
  lookup_path tree path = Some (VInt z) ->
  session_state !! widget_id path = Some (VStr "abc") ->
  let rebuilt := build_updated_settings rt session_state tree [] in
  lookup_path (fst rebuilt) path = Some (VInt z)
  /\ reports_at path (snd rebuilt)
     = [InvalidInput (List.last path "") (widget_id path) (VStr "abc")]
  /\ is_dict (fst rebuilt) = true
  /\ forall other_state : gmap string value,
       (forall q x, leaf_at tree q x -> q <> path ->
                    other_state !! widget_id q = session_state !! widget_id q) ->
       forall q x, leaf_at tree q x -> q <> path ->
         lookup_path (fst (build_updated_settings rt other_state tree [])) q
         = lookup_path (fst rebuilt) q.
Proof.
  intros Htree Hlook Hw rebuilt.
  destruct (leaf_rebuilt rt session_state tree path (VInt z) (VStr "abc")
              Htree Hlook eq_refl Hw) as [Hval Hrep].
  repeat split.
  - exact Hval.
  - exact Hrep.
  - apply build_returns_dict. now apply andb_prop in Htree as [Hd _].
  - intros other_state Hsame q x Hleaf Hq.
    pose proof (Hsame q x Hleaf Hq) as Heq.
    destruct Hleaf as (Hx & Hnd & Hne).
    pose proof (settings_tree_wf _ Htree) as Hwf.
    subst rebuilt.
    rewrite (lookup_rebuilt rt other_state q tree [] x Hwf Hx).
    rewrite (lookup_rebuilt rt session_state q tree [] x Hwf Hx).
    unfold rebuild_at. simpl.
    destruct x; try discriminate;
      (destruct q as [| k rest]; [congruence |]);
      now rewrite (rebuild_item_ext rt session_state other_state).
Qed.

Lemma int_leaf_coercion_failure_witness :
  lookup_path
    (fst (build_updated_settings sample_runtime sample_edits sample_tree []))
    ["global"; "threads"]
  = Some (VInt 2)
  /\ reports_at ["global"; "threads"]
       (snd (build_updated_settings sample_runtime sample_edits sample_tree []))
     = [InvalidInput "threads" "global_threads" (VStr "abc")].
Proof.
  pose proof (int_leaf_coercion_failure sample_runtime sample_edits sample_tree
                ["global"; "threads"] 2 eq_refl eq_refl eq_refl) as H.
  split; apply H.
Defined.

(** ** Shape and types of the rebuilt tree *)

Ltac break_match :=
  repeat
    (simpl;
     match goal with
     | |- context [match ?x with _ => _ end] =>
         lazymatch x with
         | context [match _ with _ => _ end] => fail
         | _ => destruct x eqn:?
         end
     end).

Lemma rebuild_leaf_type (rt : runtime) (key widget_key : string)
  (v w : value) :
  is_dict v = false ->
  let v' := fst (rebuild_leaf rt key widget_key v w) in
  type_of v' = type_of v
  \/ (key = "group_id"
      /\ (type_of v = TStr \/ type_of v = TNone \/ type_of v = TList)
      /\ (type_of v' = TStr \/ type_of v' = TNone)).
Proof.
  intros Hv. unfold rebuild_leaf, coerce, map_outcome.
  destruct (String.eqb_spec key "group_id") as [-> | Hne].
  - destruct v; try discriminate; break_match; simpl; auto 8.
  - left. destruct v; try discriminate; break_match; reflexivity.
Qed.

Lemma rebuild_item_type (rt : runtime) (s : gmap string value)
  (current_key_path : list string) (key : string) (v : value) :
  is_dict v = false ->
  let v' := fst (rebuild_item rt s current_key_path key v) in
  type_of v' = type_of v
  \/ (key = "group_id"
      /\ (type_of v = TStr \/ type_of v = TNone \/ type_of v = TList)
      /\ (type_of v' = TStr \/ type_of v' = TNone)).
Proof.
  intros Hv. unfold rebuild_item.
  destruct (s !! widget_id current_key_path) as [w |]; [| now left].
  pose proof (rebuild_leaf_type rt key (widget_id current_key_path) v w Hv) as H.
  destruct (rebuild_leaf rt key (widget_id current_key_path) v w). exact H.
Qed.

Lemma rebuild_item_not_dict (rt : runtime) (s : gmap string value)
  (current_key_path : list string) (key : string) (v : value) :
  is_dict v = false ->
  is_dict (fst (rebuild_item rt s current_key_path key v)) = false.
Proof.
  intros Hv.
  destruct (rebuild_item_type rt s current_key_path key v Hv)
    as [H | (_ & _ & [H | H])];
    destruct (fst (rebuild_item rt s current_key_path key v));
    destruct v; try discriminate; reflexivity.
Qed.

(** C4: the rebuilt tree has the keys of the original tree, in the same
    order, at every level of nesting: no key is dropped and none is added,
    whatever the session state holds. *)
Theorem rebuild_keeps_keys (rt : runtime) (session_state : gmap string value)
  (tree : value) :
  forall key_path : list string,
    wf_value tree = true ->
    same_keys tree (fst (build_updated_settings rt session_state tree key_path)).
Proof.
  induction tree as [v Hleaf | d IH] using value_tree_ind; intros key_path Hwf.
  - destruct v; try discriminate; now apply same_keys_leaf.
  - apply wf_dict in Hwf as [Hnd Hall].
    rewrite build_dict by assumption. simpl. apply same_keys_dict.
    clear Hnd. induction d as [| [k x] d IHd]; simpl; constructor.
    + split; [reflexivity |]. simpl.
      pose proof (Hall (k, x) (or_introl eq_refl)) as Hwfx. simpl in Hwfx.
      unfold rebuild_entry. simpl.
      destruct (is_dict x) eqn:Hx.
      * inversion IH as [| ? ? Hhead _]; subst. simpl in Hhead.
        destruct x; try discriminate. now apply Hhead.
      * apply same_keys_leaf; [assumption |].
        destruct x; try discriminate; now apply rebuild_item_not_dict.
    + apply IHd.
      * now inversion IH.
      * intros item Hin. apply Hall. now right.
Qed.

Lemma rebuild_keeps_keys_witness :
  same_keys sample_tree
    (fst (build_updated_settings sample_runtime sample_edits sample_tree [])).
Proof. apply (rebuild_keeps_keys sample_runtime sample_edits sample_tree []). reflexivity. Defined.




(** ** Widget keys *)

(** C1 fails on the code: the separator of the join is a key character, so
    two distinct paths of one settings tree, with keys made of letters and
    an underscore, get the same widget key; one entry of the session state
    then rebuilds both leaves. *)
Theorem widget_id_collision :
  settings_tree colliding_tree = true
  /\ lookup_path colliding_tree ["a_b"] = Some (VInt 1)
  /\ lookup_path colliding_tree ["a"; "b"] = Some (VInt 2)
  /\ ["a_b"] <> ["a"; "b"]
  /\ widget_id ["a_b"] = widget_id ["a"; "b"]
  /\ fst (build_updated_settings sample_runtime (<["a_b" := VInt 7]> ∅)
            colliding_tree [])
     = VDict [("a_b", VInt 7); ("a", VDict [("b", VInt 7)])].
Proof. repeat split. discriminate. Qed.

(** ** Lists edited as text *)

(** C7 fails on the code.  The scenario of the specification holds: the
    text of the lines 3, xx and 4 rebuilds [1, 2] to [3, 4] with one
    warning, for xx.  But a line that [isdigit] accepts and [int] rejects,
    such as a superscript two, is neither kept nor dropped: [int] raises,
    and the handler puts the original list back. *)
Theorem serial_numbers_superscript :
  build_updated_settings sample_runtime
    (<["serial_numbers" := VStr (lines ["3"; "xx"; "4"])]> ∅) serial_tree []
  = (VDict [("serial_numbers", VList [VInt 3; VInt 4])],
     [(["serial_numbers"], Lookup "serial_numbers");
      (["serial_numbers"], Report (InvalidSerial "xx" "serial_numbers"))])
  /\ PyStr.isdigit superscript_two = true
  /\ PyStr.to_int superscript_two = None
  /\ build_updated_settings sample_runtime
       (<["serial_numbers" := VStr (lines ["3"; superscript_two; "4"])]> ∅)
       serial_tree []
     = (serial_tree,
        [(["serial_numbers"], Lookup "serial_numbers");
         (["serial_numbers"],
          Report (InvalidInput "serial_numbers" "serial_numbers"
                    (VStr (lines ["3"; superscript_two; "4"]))))]).
Proof. repeat split. Qed.




(** ** Order of traversal *)

Section Traversal.

Variable rt : runtime.
Variable session_state : gmap string value.




Lemma lookups_app (a b : trace) : lookups (a ++ b) = lookups a ++ lookups b.
Proof.
  induction a as [| [p [k | d]] a IH]; simpl; [reflexivity | | exact IH].
  now rewrite IH.
Qed.

Lemma lookups_concat {A : Type} (f : A -> trace) (l : list A) :
  lookups (concat (map f l)) = flat_map (fun x => lookups (f x)) l.
Proof.
  induction l as [| x l IH]; simpl; [reflexivity |].
  now rewrite lookups_app, IH.
Qed.

Lemma lookups_reports (path : list string) (log : list diagnostic) :
  lookups (map (fun d => (path, Report d)) log) = [].
Proof. induction log; simpl; auto. Qed.

Lemma lookups_item (current_key_path : list string) (key : string) (v : value) :
  lookups (snd (rebuild_item rt session_state current_key_path key v))
  = [widget_id current_key_path].
Proof.
  unfold rebuild_item.
  destruct (session_state !! widget_id current_key_path) as [w |]; [| reflexivity].
  destruct (rebuild_leaf rt key (widget_id current_key_path) v w) as [x log].
  simpl. now rewrite lookups_reports.
Qed.





End Traversal.

(** ** The page *)

Section Page.

Variable rt : runtime.
Variable session_state : gmap string value.








End Page.




(** ** Text of the list editors *)

Section Text.

Import PyStr.












End Text.

(** ** Numbers as text *)

Section Numbers.

Import PyStr.







End Numbers.

(** ** Round trip of a leaf *)

Section LeafRoundTrip.

Variable rt : runtime.






Lemma selected_option (options : list string) (s : string) (default : nat) :
  mem s options = true -> selected options s default = s.
Proof.
  unfold selected. intros H.
  assert (forall xs, mem s xs = true ->
            exists i, index_of s xs = Some i /\ nth i xs "" = s) as Hidx.
  { induction xs as [| x xs IH]; simpl; [discriminate |].
    rewrite String.eqb_sym.
    destruct (String.eqb_spec x s) as [-> | Hne]; simpl.
    - intros _. exists O. now split.
    - intros Hm. destruct (IH Hm) as (i & -> & Hi). exists (S i). now split. }
  destruct (Hidx options H) as (i & -> & Hi). exact Hi.
Qed.





End LeafRoundTrip.

(** ** Round trip of a tree *)

Section RoundTrip.

Variable rt : runtime.
Variable session_state : gmap string value.





End RoundTrip.




(** ** Where widget keys are unique *)

Section Separator.

Let underscore : ascii := ascii_of_N 95.

(** What follows the first key in a joined path: nothing, or the
    separator and the rest. *)
Let continues (t : string) : Prop :=
  t = "" \/ exists r, t = String underscore r.

Lemma key_prefix (k : string) :
  forall (k' t t' : string),
    no_underscore k = true -> no_underscore k' = true ->
    continues t -> continues t' ->
    String.append k t = String.append k' t' ->
    k = k' /\ t = t'.
Proof.
  assert (forall c r s, no_underscore (String c r) = true ->
            continues s -> s <> String c (String.append r s) /\
            forall u, s = String c u -> False) as Hclash.
  { intros c r s Hk Hs. unfold no_underscore in Hk. simpl in Hk.
    apply andb_prop in Hk as [Hc _]. apply negb_true_iff in Hc.
    assert (forall u, s = String c u -> False) as Hno.
    { intros u ->. destruct Hs as [Hs | [r' Hs]]; [discriminate |].
      injection Hs as -> _. vm_compute in Hc. discriminate. }
    split; [| exact Hno]. intros Heq. exact (Hno _ Heq). }
  induction k as [| c k IH]; intros k' t t' Hk Hk' Ht Ht' Heq.
  - destruct k' as [| c' k'']; [now split |].
    exfalso. simpl in Heq.
    exact (proj2 (Hclash c' k'' t Hk' Ht) _ Heq).
  - destruct k' as [| c' k''].
    + exfalso. simpl in Heq. symmetry in Heq.
      exact (proj2 (Hclash c k t' Hk Ht') _ Heq).
    + simpl in Heq. injection Heq as -> Heq.
      unfold no_underscore in Hk, Hk'. simpl in Hk, Hk'.
      apply andb_prop in Hk as [_ Hk]. apply andb_prop in Hk' as [_ Hk'].
      destruct (IH k'' t t' Hk Hk' Ht Ht' Heq) as [-> ->]. now split.
Qed.

Lemma widget_id_cons (k : string) (rest : list string) :
  exists t,
    widget_id (k :: rest) = String.append k t
    /\ continues t
    /\ (rest = [] -> t = "")
    /\ (rest <> [] -> t = String underscore (widget_id rest)).
Proof.
  destruct rest as [| k' rest].
  - exists "". repeat split.
    + unfold widget_id, PyStr.join. cbn [String.concat].
      induction k as [| c k IH]; [reflexivity |].
      change (String.append (String c k) "") with (String c (String.append k "")).
      now rewrite <- IH.
    + now left.
    + congruence.
  - exists (String underscore (widget_id (k' :: rest))). repeat split.
    + right. now eexists.
    + discriminate.
Qed.

(** Paths whose keys hold no underscore have distinct widget keys. *)
Lemma widget_id_injective (p : list string) :
  forall q : list string,
    p <> [] -> q <> [] ->
    Forall (fun k => no_underscore k = true) p ->
    Forall (fun k => no_underscore k = true) q ->
    widget_id p = widget_id q ->
    p = q.
Proof.
  induction p as [| k rest IH]; intros q Hp Hq Hkp Hkq Heq; [congruence |].
  destruct q as [| k' rest']; [congruence |].
  inversion Hkp as [| ? ? Hk Hrest]; subst.
  inversion Hkq as [| ? ? Hk' Hrest']; subst.
  destruct (widget_id_cons k rest) as (t & Ht & Hc & Hnil & Hcons).
  destruct (widget_id_cons k' rest') as (t' & Ht' & Hc' & Hnil' & Hcons').
  rewrite Ht, Ht' in Heq.
  destruct (key_prefix k k' t t' Hk Hk' Hc Hc' Heq) as [-> Htt].
  f_equal.
  destruct rest as [| a rest]; destruct rest' as [| a' rest'].
  - reflexivity.
  - rewrite (Hnil eq_refl), Hcons' in Htt by discriminate. discriminate.
  - rewrite (Hnil' eq_refl), Hcons in Htt by discriminate. discriminate.
  - rewrite Hcons, Hcons' in Htt by discriminate. injection Htt as Htt.
    apply IH; try assumption; discriminate.
Qed.

End Separator.

(** ** The serial numbers loop on decimal digits *)

Section Serials.

Import PyStr.




End Serials.

(** * Further properties *)

(** ** What the rebuild reads *)

Section Reads.

Variable rt : runtime.

(** The rebuild of a tree depends on the session state only through the
    entries under the widget keys of its leaves. *)
Lemma build_ext (tree : value) :
  forall (key_path : list string) (s s' : gmap string value),
    wf_value tree = true ->
    (forall p v, lookup_path tree p = Some v -> is_dict v = false -> p <> [] ->
                 s' !! widget_id (key_path ++ p) = s !! widget_id (key_path ++ p)) ->
    build_updated_settings rt s' tree key_path
    = build_updated_settings rt s tree key_path.
Proof.
  induction tree as [v Hleaf | d IH] using value_tree_ind;
    intros key_path s s' Hwf Hsame.
  - destruct v; try discriminate; reflexivity.
  - apply wf_dict in Hwf as [Hnd Hall].
    rewrite !build_dict by assumption.
    assert (forall item, In item d ->
              rebuild_entry rt s' key_path item = rebuild_entry rt s key_path item)
      as Hitem.
    { intros [k x] Hin. pose proof (In_dict_get k d x Hnd Hin) as Hget.
      unfold rebuild_entry. cbn [fst snd].
      rewrite List.Forall_forall in IH.
      destruct (is_dict x) eqn:Hx.
      - destruct x; try discriminate.
        apply (IH _ Hin); [now apply (Hall _ Hin) |].
        intros p v Hp Hv Hne. rewrite <- !app_assoc. simpl.
        apply (Hsame (k :: p) v); [| assumption | discriminate].
        simpl. now rewrite Hget.
      - assert (rebuild_item rt s' (key_path ++ [k]) k x
                = rebuild_item rt s (key_path ++ [k]) k x) as Heq.
        { apply rebuild_item_ext. apply (Hsame [k] x); [| assumption | discriminate].
          simpl. now rewrite Hget. }
        destruct x; try discriminate; exact Heq. }
    f_equal.
    + f_equal. apply map_ext_in. intros item Hin. now rewrite (Hitem item Hin).
    + f_equal. apply map_ext_in. intros item Hin. now rewrite (Hitem item Hin).
Qed.

(** With an empty session state nothing is changed and nothing reported. *)
Lemma build_empty (tree : value) :
  forall key_path : list string,
    wf_value tree = true ->
    fst (build_updated_settings rt ∅ tree key_path) = tree
    /\ forall p, reports_at p (snd (build_updated_settings rt ∅ tree key_path)) = [].
Proof.
  induction tree as [v Hleaf | d IH] using value_tree_ind; intros key_path Hwf.
  - destruct v; try discriminate; now split.
  - apply wf_dict in Hwf as [Hnd Hall].
    rewrite build_dict by assumption. cbn [fst snd].
    rewrite List.Forall_forall in IH.
    assert (forall item, In item d ->
              fst (rebuild_entry rt ∅ key_path item) = snd item
              /\ forall p, reports_at p (snd (rebuild_entry rt ∅ key_path item)) = [])
      as Hitem.
    { intros [k x] Hin. unfold rebuild_entry. cbn [fst snd].
      destruct (is_dict x) eqn:Hx.
      - destruct x; try discriminate. apply (IH _ Hin). now apply (Hall _ Hin).
      - assert (rebuild_item rt ∅ (key_path ++ [k]) k x
                = (x, [(key_path ++ [k], Lookup (widget_id (key_path ++ [k])))]))
          as Heq by (unfold rebuild_item; now rewrite lookup_empty).
        destruct x; try discriminate; rewrite Heq; now split. }
    clear IH Hnd Hall. split.
    + f_equal. induction d as [| [k x] d IHd]; [reflexivity |]. simpl.
      rewrite (proj1 (Hitem (k, x) (or_introl eq_refl))). f_equal.
      apply IHd. intros item Hin. apply Hitem. now right.
    + intros p. induction d as [| item d IHd]; [reflexivity |]. simpl.
      rewrite reports_at_app, (proj2 (Hitem item (or_introl eq_refl))).
      apply IHd. intros y Hy. apply Hitem. now right.
Qed.

(** The widget keys the rebuild asks for are those of the leaves. *)
Lemma lookups_leaves (s : gmap string value) (tree : value) :
  forall (key_path : list string) (k : string),
    wf_value tree = true ->
    In k (lookups (snd (build_updated_settings rt s tree key_path)))
    <-> exists p v,
          lookup_path tree p = Some v /\ is_dict v = false /\ p <> []
          /\ k = widget_id (key_path ++ p).
Proof.
  induction tree as [v Hleaf | d IH] using value_tree_ind; intros key_path k Hwf.
  - split.
    + destruct v; try discriminate; intros [].
    + intros (p & x & Hp & Hx & Hne & _).
      destruct (lookup_path_leaf _ _ _ Hleaf Hp) as [-> _]. congruence.
  - apply wf_dict in Hwf as [Hnd Hall].
    rewrite build_dict by assumption. cbn [snd]. rewrite lookups_concat.
    rewrite List.Forall_forall in IH. rewrite in_flat_map. split.
    + intros ([k0 x] & Hin & Hk). pose proof (In_dict_get k0 d x Hnd Hin) as Hget.
      unfold rebuild_entry in Hk. cbn [fst snd] in Hk.
      destruct (is_dict x) eqn:Hx.
      * destruct x; try discriminate.
        apply (IH _ Hin) in Hk as (p & v & Hp & Hv & Hne & ->);
          [| now apply (Hall _ Hin)].
        exists (k0 :: p), v. repeat split; try assumption; try discriminate.
        -- simpl. now rewrite Hget.
        -- now rewrite <- app_assoc.
      * exists [k0], x. repeat split; try assumption; try discriminate.
        -- simpl. now rewrite Hget.
        -- assert (In k (lookups (snd (rebuild_item rt s (key_path ++ [k0]) k0 x))))
             as Hk' by (destruct x; try discriminate; exact Hk).
           rewrite lookups_item in Hk'. now destruct Hk' as [<- | []].
    + intros (p & v & Hp & Hv & Hne & ->).
      destruct p as [| k0 rest]; [congruence |]. simpl in Hp.
      destruct (dict_get k0 d) as [x |] eqn:Hget; [| discriminate].
      pose proof (dict_get_In _ _ _ Hget) as Hin.
      exists (k0, x). split; [assumption |].
      unfold rebuild_entry. cbn [fst snd].
      destruct (is_dict x) eqn:Hx.
      * destruct x; try discriminate.
        apply (IH _ Hin); [now apply (Hall _ Hin) |].
        exists rest, v. repeat split; try assumption.
        -- intros ->. simpl in Hp. injection Hp as <-. discriminate.
        -- now rewrite <- app_assoc.
      * destruct (lookup_path_leaf _ _ _ Hx Hp) as [-> ->].
        assert (In (widget_id (key_path ++ [k0]))
                  (lookups (snd (rebuild_item rt s (key_path ++ [k0]) k0 x))))
          as Hk' by (rewrite lookups_item; now left).
        destruct x; try discriminate; exact Hk'.
Qed.

End Reads.

Lemma leaf_key_looked_up (rt : runtime) (s : gmap string value) (tree : value)
  (p : list string) (v : value) :
  wf_value tree = true ->
  leaf_at tree p v ->
  In (widget_id p) (lookups (snd (build_updated_settings rt s tree []))).
Proof.
  intros Hwf (Hp & Hv & Hne). apply lookups_leaves; [assumption |].
  exists p, v. now repeat split.
Qed.

(** Settles a goal about [widget_id p] for each of the listed keys. *)
Ltac each_leaf_key p Hin :=
  generalize dependent (widget_id p); intros k Hin; vm_compute in Hin;
  repeat (destruct Hin as [<- | Hin]; [reflexivity |]); destruct Hin.

(** X1: when the session state holds no entry under the widget key of any
    leaf (no widget was ever rendered), the rebuild returns the tree as it
    is and reports nothing, whatever else the session state holds. *)
Theorem rebuild_without_entries (rt : runtime) (session_state : gmap string value)
  (tree : value) :
  settings_tree tree = true ->
  (forall p v, leaf_at tree p v -> session_state !! widget_id p = None) ->
  fst (build_updated_settings rt session_state tree []) = tree
  /\ forall p,
       reports_at p (snd (build_updated_settings rt session_state tree [])) = [].
Proof.
  intros Htree Hnone. pose proof (settings_tree_wf _ Htree) as Hwf.
  rewrite (build_ext rt tree [] ∅ session_state Hwf).
  - now apply build_empty.
  - intros p v Hp Hv Hne. simpl. rewrite lookup_empty. apply (Hnone p v).
    now repeat split.
Qed.

Lemma rebuild_without_entries_witness :
  fst (build_updated_settings sample_runtime
         (<["current_settings_data" := sample_tree]> ∅) sample_tree [])
  = sample_tree.
Proof.
  apply (rebuild_without_entries sample_runtime
           (<["current_settings_data" := sample_tree]> ∅) sample_tree eq_refl).
  intros p v Hleaf.
  pose proof (leaf_key_looked_up sample_runtime ∅ sample_tree p v eq_refl Hleaf)
    as Hin.
  each_leaf_key p Hin.
Defined.

(** X2: two session states that hold the same entries under the widget
    keys of the leaves give the same rebuilt tree and the same events:
    entries under any other key, such as the page's own
    [current_settings_data], are never read. *)
Theorem rebuild_frame (rt : runtime) (s s' : gmap string value) (tree : value) :
  settings_tree tree = true ->
  (forall p v, leaf_at tree p v -> s' !! widget_id p = s !! widget_id p) ->
  build_updated_settings rt s' tree [] = build_updated_settings rt s tree [].
Proof.
  intros Htree Hsame. apply build_ext; [now apply settings_tree_wf |].
  intros p v Hp Hv Hne. simpl. apply (Hsame p v). now repeat split.
Qed.

Lemma rebuild_frame_witness :
  build_updated_settings sample_runtime
    (<["global" := VStr "x"]> sample_edits) sample_tree []
  = build_updated_settings sample_runtime sample_edits sample_tree [].
Proof.
  apply (rebuild_frame sample_runtime sample_edits
           (<["global" := VStr "x"]> sample_edits) sample_tree eq_refl).
  intros p v Hleaf.
  pose proof (leaf_key_looked_up sample_runtime ∅ sample_tree p v eq_refl Hleaf)
    as Hin.
  each_leaf_key p Hin.
Defined.



(** ** Numbers and strings written back *)

Section Scalars.

Import PyStr.



End Scalars.

(** X4: an int leaf whose widget key is in the session state is rebuilt
    as [int(widget_value)]; when [int] raises [ValueError] (malformed text,
    NaN) the original int is kept and the invalid-input diagnostic
    reported, and when it raises anything else (null, a list, a mapping,
    an infinity) the original int is kept and the generic diagnostic
    reported. *)
Theorem int_leaf_outcomes (rt : runtime) (session_state : gmap string value)
  (tree : value) (path : list string) (z : Z) (widget_value : value) :
  settings_tree tree = true ->
  lookup_path tree path = Some (VInt z) ->
  session_state !! widget_id path = Some widget_value ->
  let rebuilt := build_updated_settings rt session_state tree [] in
  match py_int widget_value with
  | Ok z' =>
      lookup_path (fst rebuilt) path = Some (VInt z')
      /\ reports_at path (snd rebuilt) = []
  | ValueError =>
      lookup_path (fst rebuilt) path = Some (VInt z)
      /\ reports_at path (snd rebuilt)
         = [InvalidInput (List.last path "") (widget_id path) widget_value]
  | OtherError =>
      lookup_path (fst rebuilt) path = Some (VInt z)
      /\ reports_at path (snd rebuilt)
         = [ProcessingError (List.last path "") (widget_id path) widget_value]
  end.
Proof.
  intros Htree Hlook Hw rebuilt.
  destruct (leaf_rebuilt rt session_state tree path (VInt z) widget_value
              Htree Hlook eq_refl Hw) as [Hval Hrep].
  subst rebuilt. rewrite Hval, Hrep. unfold rebuild_leaf, coerce.
  destruct (py_int widget_value); now split.
Qed.

Lemma int_leaf_outcomes_witness :
  lookup_path
    (fst (build_updated_settings sample_runtime
            (<["global_threads" := VNone]> ∅) sample_tree []))
    ["global"; "threads"]
  = Some (VInt 2)
  /\ reports_at ["global"; "threads"]
       (snd (build_updated_settings sample_runtime
               (<["global_threads" := VNone]> ∅) sample_tree []))
     = [ProcessingError "threads" "global_threads" VNone].
Proof.
  exact (int_leaf_outcomes sample_runtime (<["global_threads" := VNone]> ∅)
           sample_tree ["global"; "threads"] 2 VNone eq_refl eq_refl eq_refl).
Defined.



(** X6: a float leaf whose widget key is in the session state is rebuilt
    as [float(widget_value)], so that a float from the number input comes
    back as it is; on [ValueError] or any other exception the original
    float is kept and the matching diagnostic reported. *)
Theorem float_leaf_outcomes (rt : runtime) (session_state : gmap string value)
  (tree : value) (path : list string) (f : float) (widget_value : value) :
  settings_tree tree = true ->
  lookup_path tree path = Some (VFloat f) ->
  session_state !! widget_id path = Some widget_value ->
  let rebuilt := build_updated_settings rt session_state tree [] in
  (forall f', widget_value = VFloat f' ->
              lookup_path (fst rebuilt) path = Some (VFloat f'))
  /\ match py_float rt widget_value with
     | Ok f' =>
         lookup_path (fst rebuilt) path = Some (VFloat f')
         /\ reports_at path (snd rebuilt) = []
     | ValueError =>
         lookup_path (fst rebuilt) path = Some (VFloat f)
         /\ reports_at path (snd rebuilt)
            = [InvalidInput (List.last path "") (widget_id path) widget_value]
     | OtherError =>
         lookup_path (fst rebuilt) path = Some (VFloat f)
         /\ reports_at path (snd rebuilt)
            = [ProcessingError (List.last path "") (widget_id path) widget_value]
     end.
Proof.
  intros Htree Hlook Hw rebuilt.
  destruct (leaf_rebuilt rt session_state tree path (VFloat f) widget_value
              Htree Hlook eq_refl Hw) as [Hval Hrep].
  subst rebuilt. rewrite Hval, Hrep. unfold rebuild_leaf, coerce. split.
  - intros f' ->. reflexivity.
  - destruct (py_float rt widget_value); now split.
Qed.

Lemma float_leaf_outcomes_witness :
  lookup_path
    (fst (build_updated_settings sample_runtime
            (<["global_success_rate" := VInt 1]> ∅) sample_tree []))
    ["global"; "success_rate"]
  = Some (VFloat 1%float).
Proof.
  exact (proj1 (proj2 (float_leaf_outcomes sample_runtime
                  (<["global_success_rate" := VInt 1]> ∅) sample_tree
                  ["global"; "success_rate"] 0.5%float (VInt 1)
                  eq_refl eq_refl eq_refl))).
Defined.

(** X7: a string leaf that is not a [group_id] is rebuilt as
    [str(widget_value)]: the text of a text input comes back verbatim,
    blanks included, and no diagnostic is reported. *)
Theorem str_leaf_verbatim (rt : runtime) (session_state : gmap string value)
  (tree : value) (path : list string) (s : string) (widget_value : value) :
  settings_tree tree = true ->
  lookup_path tree path = Some (VStr s) ->
  List.last path "" <> "group_id" ->
  session_state !! widget_id path = Some widget_value ->
  let rebuilt := build_updated_settings rt session_state tree [] in
  lookup_path (fst rebuilt) path = Some (VStr (py_str rt widget_value))
  /\ (forall text, widget_value = VStr text ->
                   lookup_path (fst rebuilt) path = Some (VStr text))
  /\ reports_at path (snd rebuilt) = [].
Proof.
  intros Htree Hlook Hkey Hw rebuilt.
  destruct (leaf_rebuilt rt session_state tree path (VStr s) widget_value
              Htree Hlook eq_refl Hw) as [Hval Hrep].
  subst rebuilt. rewrite Hval, Hrep. unfold rebuild_leaf, coerce.
  destruct (String.eqb_spec (List.last path "") "group_id"); [congruence |].
  repeat split. intros text ->. reflexivity.
Qed.

Lemma str_leaf_verbatim_witness :
  lookup_path
    (fst (build_updated_settings sample_runtime
            (<["global_mode" := VStr " dev "]> ∅) sample_tree []))
    ["global"; "mode"]
  = Some (VStr " dev ").
Proof.
  apply (str_leaf_verbatim sample_runtime (<["global_mode" := VStr " dev "]> ∅)
           sample_tree ["global"; "mode"] "prod" (VStr " dev "));
    first [reflexivity | discriminate].
Defined.

(** ** Stripping and splitting *)

Section Stripping.

Import PyStr.

Variable p : ascii -> bool.

Lemma rstrip_with_idem (s : string) :
  rstrip_with p (rstrip_with p s) = rstrip_with p s.
Proof.
  induction s as [| c s IH]; [reflexivity |]. cbn [rstrip_with].
  destruct (is_empty (rstrip_with p s) && p c) eqn:Hc; [reflexivity |].
  cbn [rstrip_with]. now rewrite IH, Hc.
Qed.

Lemma lstrip_with_head (s : string) :
  lstrip_with p s = ""
  \/ exists c r, lstrip_with p s = String c r /\ p c = false.
Proof.
  induction s as [| c s IH]; [now left |]. cbn [lstrip_with].
  destruct (p c) eqn:Hc; [exact IH |]. right. now exists c, s.
Qed.

Lemma strip_with_idem (s : string) :
  strip_with p (strip_with p s) = strip_with p s.
Proof.
  assert (forall t,
            t = "" \/ (exists c r, t = String c r /\ p c = false) ->
            strip_with p (rstrip_with p t) = rstrip_with p t) as Hhead.
  { intros t [-> | (c & r & -> & Hc)]; [reflexivity |].
    assert (rstrip_with p (String c r) = String c (rstrip_with p r)) as Hr
      by (cbn [rstrip_with]; now rewrite Hc, andb_false_r).
    unfold strip_with. rewrite Hr. cbn [lstrip_with]. rewrite Hc.
    rewrite <- Hr. apply rstrip_with_idem. }
  unfold strip_with at 2 3. apply Hhead, lstrip_with_head.
Qed.

Lemma lstrip_with_all (q : ascii -> bool) (s : string) :
  all_chars q s = true -> all_chars q (lstrip_with p s) = true.
Proof.
  induction s as [| c s IH]; [reflexivity |]. intros H. cbn [lstrip_with].
  destruct (p c); [| exact H].
  simpl in H. apply andb_prop in H as [_ H]. now apply IH.
Qed.

Lemma rstrip_with_all (q : ascii -> bool) (s : string) :
  all_chars q s = true -> all_chars q (rstrip_with p s) = true.
Proof.
  induction s as [| c s IH]; [reflexivity |]. intros H.
  simpl in H. apply andb_prop in H as [Hc Hs]. cbn [rstrip_with].
  destruct (is_empty (rstrip_with p s) && p c); [reflexivity |].
  simpl. now rewrite Hc, IH.
Qed.

Lemma strip_with_all (q : ascii -> bool) (s : string) :
  all_chars q s = true -> all_chars q (strip_with p s) = true.
Proof. intros H. unfold strip_with. now apply rstrip_with_all, lstrip_with_all. Qed.

End Stripping.

Section Splitting.

Import PyStr.

Lemma splitlines_bounded (n : nat) :
  forall s, (String.length s <= n)%nat ->
            Forall (fun l => all_chars no_linebreak l = true) (splitlines s).
Proof.
  induction n as [| n IH]; intros s Hlen.
  - destruct s; [constructor | simpl in Hlen; lia].
  - destruct s as [| c r]; [constructor |]. simpl in Hlen.
    cbn [splitlines]. destruct (is_linebreak c) eqn:Hc.
    + destruct r as [| d r'].
      * repeat constructor.
      * destruct ((code c =? 13)%N && (code d =? 10)%N);
          (constructor; [reflexivity |]); apply IH; simpl in *; lia.
    + assert (Forall (fun l => all_chars no_linebreak l = true) (splitlines r))
        as Hr by (apply IH; lia).
      destruct (splitlines r) as [| l ls].
      * repeat constructor. simpl. unfold no_linebreak. now rewrite Hc.
      * inversion Hr as [| ? ? Hl Hls]; subst. constructor; [| assumption].
        simpl. unfold no_linebreak at 1. now rewrite Hc.
Qed.

(** No line of [splitlines] holds a line break. *)
Lemma splitlines_no_linebreak (s : string) :
  Forall (fun l => all_chars no_linebreak l = true) (splitlines s).
Proof. now apply (splitlines_bounded (String.length s)). Qed.



End Splitting.

(** ** What the text editors write back *)



(** X9: a list under [sender_email], [ad_identifiers] or
    [regular_engagement_skip_senders] is rebuilt from the lines of the text:
    each line stripped, the blank ones dropped.  What is written back is a
    list of non-empty one-line strings without surrounding whitespace,
    whatever the text was, and no diagnostic is reported. *)
Theorem text_list_normal_form (rt : runtime) (session_state : gmap string value)
  (tree : value) (path : list string) (l : list value) (widget_value : value) :
  settings_tree tree = true ->
  lookup_path tree path = Some (VList l) ->
  mem (List.last path "")
    ["sender_email"; "ad_identifiers"; "regular_engagement_skip_senders"]
  = true ->
  session_state !! widget_id path = Some widget_value ->
  let written :=
    map (fun line => VStr (PyStr.strip line))
      (List.filter (fun line => negb (PyStr.is_empty (PyStr.strip line)))
         (PyStr.splitlines (py_str rt widget_value))) in
  lookup_path (fst (build_updated_settings rt session_state tree [])) path
  = Some (VList written)
  /\ forallb is_plain_str written = true
  /\ reports_at path (snd (build_updated_settings rt session_state tree [])) = [].
Proof.
  intros Htree Hlook Hkey Hw written.
  destruct (leaf_rebuilt rt session_state tree path (VList l) widget_value
              Htree Hlook eq_refl Hw) as [Hval Hrep].
  rewrite Hval, Hrep. clear Hval Hrep.
  assert (rebuild_leaf rt (List.last path "") (widget_id path) (VList l)
            widget_value = (VList written, [])) as ->.
  { unfold rebuild_leaf, coerce. rewrite Hkey.
    destruct (String.eqb_spec (List.last path "") "group_id") as [Heq |];
      [rewrite Heq in Hkey; discriminate | reflexivity]. }
  repeat split. subst written.
  pose proof (splitlines_no_linebreak (py_str rt widget_value)) as Hlines.
  induction Hlines as [| line lines Hline _ IH]; [reflexivity |].
  cbn [List.filter].
  destruct (PyStr.is_empty (PyStr.strip line)) eqn:Hempty; cbn [negb]; [exact IH |].
  cbn [map forallb is_plain_str]. rewrite IH, Hempty.
  unfold PyStr.strip at 1. rewrite strip_with_all by assumption.
  unfold PyStr.strip at 1 2. rewrite strip_with_idem. simpl.
  now rewrite String.eqb_refl.
Qed.

Lemma text_list_normal_form_witness :
  lookup_path
    (fst (build_updated_settings sample_runtime
            (<["ad_identifiers" := VStr (lines ["a"; " b "; ""; "c"; ""])]> ∅)
            sample_tree []))
    ["ad_identifiers"]
  = Some (VList [VStr "a"; VStr "b"; VStr "c"]).
Proof.
  apply (text_list_normal_form sample_runtime
           (<["ad_identifiers" := VStr (lines ["a"; " b "; ""; "c"; ""])]> ∅)
           sample_tree ["ad_identifiers"] [VStr "a"; VStr "b"]
           (VStr (lines ["a"; " b "; ""; "c"; ""])));
    reflexivity.
Defined.



(** ** What the widgets show and protect *)

Lemma index_of_absent (x : string) (xs : list string) :
  mem x xs = false -> index_of x xs = None.
Proof.
  induction xs as [| y xs IH]; simpl; [reflexivity |].
  rewrite String.eqb_sym. destruct (String.eqb y x); simpl; [discriminate |].
  intros H. now rewrite IH.
Qed.

Lemma selected_default (options : list string) (candidate : string)
  (default : nat) :
  mem candidate options = false ->
  selected options candidate default = nth default options "".
Proof. intros H. unfold selected. now rewrite index_of_absent. Qed.

(** X11: a select box always shows one of its options.  For [mode] it is
    the stored string when that is an option and "prod" otherwise; for
    [log_level] the stored string is matched in lower case, and "info" is
    shown when it matches no option. *)
Theorem select_box_shows_option (rt : runtime) (key_path : list string)
  (s : string) (level : nat) :
  List.last key_path "" = "mode" \/ List.last key_path "" = "log_level" ->
  exists o,
    widgets (render_setting rt key_path (VStr s) level)
    = [{| w_kind := Selectbox; w_key := widget_id key_path;
          w_value := VStr o; w_disabled := false |}]
    /\ (List.last key_path "" = "mode" ->
        In o ["prod"; "dev"]
        /\ o = if mem s ["prod"; "dev"] then s else "prod")
    /\ (List.last key_path "" = "log_level" ->
        In o ["debug"; "info"; "warning"; "error"; "critical"]
        /\ o = if mem (PyStr.lower s)
                    ["debug"; "info"; "warning"; "error"; "critical"]
               then PyStr.lower s else "info").
Proof.
  intros Hkey. cbn [render_setting].
  destruct Hkey as [Hkey | Hkey]; rewrite Hkey;
    cbn [String.eqb Ascii.eqb Bool.eqb andb widgets];
    eexists; (split; [reflexivity |]); split; intros Heq; try discriminate Heq.
  - destruct (mem s ["prod"; "dev"]) eqn:Hmem.
    + rewrite selected_option by assumption. split; [now apply mem_In | reflexivity].
    + rewrite selected_default by assumption. split; [simpl; auto | reflexivity].
  - destruct (mem (PyStr.lower s)
                ["debug"; "info"; "warning"; "error"; "critical"]) eqn:Hmem.
    + rewrite selected_option by assumption. split; [now apply mem_In | reflexivity].
    + rewrite selected_default by assumption. split; [simpl; auto | reflexivity].
Qed.

Lemma select_box_shows_option_witness :
  exists o,
    widgets (render_setting sample_runtime ["global"; "log_level"] (VStr "WARNING") 1)
    = [{| w_kind := Selectbox; w_key := "global_log_level";
          w_value := VStr o; w_disabled := false |}]
    /\ o = "warning".
Proof.
  destruct (select_box_shows_option sample_runtime ["global"; "log_level"]
              "WARNING" 1 (or_intror eq_refl)) as (o & Hw & _ & Hlog).
  exists o. split; [exact Hw |]. now destruct (Hlog eq_refl) as [_ ->].
Defined.

Lemma disabled_leaf_kept (rt : runtime) (key_path : list string) (v : value)
  (level : nat) (w : widget) :
  is_dict v = false ->
  widgets (render_setting rt key_path v level) = [w] ->
  w_disabled w = true ->
  List.last key_path "" <> "group_id" ->
  List.last key_path "" <> "session_types" \/ PYYAML_AVAILABLE rt = false ->
  forall widget_key widget_value,
    fst (rebuild_leaf rt (List.last key_path "") widget_key v widget_value) = v.
Proof.
  intros Hv. destruct v as [| b | z | f | s | l | d]; try discriminate;
    cbn [render_setting];
    generalize (List.last key_path "") as key; intros key Hw Hdis Hgroup Hyaml
      widget_key widget_value;
    unfold rebuild_leaf, coerce;
    destruct (String.eqb_spec key "group_id") as [| _]; try congruence;
    try reflexivity;
    try (repeat match type of Hw with
           | context [if ?b then _ else _] => destruct b
           end;
         injection Hw as <-; discriminate Hdis).
  unfold mem, list_keys_textarea in *. cbn [existsb] in *.
  destruct (String.eqb key "sender_email"); cbn [orb] in *;
    [injection Hw as <-; discriminate Hdis |].
  destruct (String.eqb key "ad_identifiers"); cbn [orb] in *;
    [injection Hw as <-; discriminate Hdis |].
  destruct (String.eqb key "regular_engagement_skip_senders"); cbn [orb] in *;
    [injection Hw as <-; discriminate Hdis |].
  destruct (String.eqb key "serial_numbers"); cbn [orb] in *;
    [injection Hw as <-; discriminate Hdis |].
  destruct (String.eqb_spec key "session_types") as [Heq | _];
    cbn [andb]; [| reflexivity].
  destruct Hyaml as [Hne | ->]; [congruence | reflexivity].
Qed.

(** X12: a leaf that is rendered as a disabled widget (a null, a list
    with no editor) is rebuilt to its original value whatever the session
    state holds under its key, unless it is named [group_id], or
    [session_types] with PyYAML available. *)
Theorem read_only_leaf_kept (rt : runtime) (session_state : gmap string value)
  (tree : value) (path : list string) (v : value) (level : nat) (w : widget) :
  settings_tree tree = true ->
  lookup_path tree path = Some v ->
  is_dict v = false ->
  widgets (render_setting rt path v level) = [w] ->
  w_disabled w = true ->
  List.last path "" <> "group_id" ->
  List.last path "" <> "session_types" \/ PYYAML_AVAILABLE rt = false ->
  lookup_path (fst (build_updated_settings rt session_state tree [])) path
  = Some v.
Proof.
  intros Htree Hlook Hv Hw Hdis Hgroup Hyaml.
  destruct (session_state !! widget_id path) as [x |] eqn:Hx.
  - destruct (leaf_rebuilt rt session_state tree path v x Htree Hlook Hv Hx)
      as [-> _].
    f_equal. now apply (disabled_leaf_kept rt path v level w).
  - now apply leaf_untouched.
Qed.

Lemma read_only_leaf_kept_witness :
  lookup_path
    (fst (build_updated_settings sample_runtime (<["notes" := VStr "x"]> ∅)
            sample_tree []))
    ["notes"]
  = Some VNone.
Proof.
  apply (read_only_leaf_kept sample_runtime (<["notes" := VStr "x"]> ∅) sample_tree
           ["notes"] VNone 0
           {| w_kind := TextInput; w_key := "notes"; w_value := VStr "None";
              w_disabled := true |});
    first [reflexivity | discriminate | left; discriminate].
Defined.

(** ** Bounds of the number inputs *)

Lemma contains_cons (sub : string) (c : ascii) (s : string) :
  contains sub s = true -> contains sub (String c s) = true.
Proof. intros H. cbn [contains]. rewrite H. apply orb_true_r. Qed.

Lemma contains_app (sub a b : string) :
  contains sub (String.append a (String.append sub b)) = true.
Proof.
  induction a as [| c a IH].
  - change (String.append "" (String.append sub b)) with (String.append sub b).
    assert (String.prefix sub (String.append sub b) = true) as Hp.
    { induction sub as [| d sub IHs];
        [change (String.append "" b) with b; now destruct b |].
      change (String.append (String d sub) b) with (String d (String.append sub b)).
      cbn [String.prefix]. destruct (ascii_dec d d); [exact IHs | congruence]. }
    destruct (String.append sub b); cbn [contains]; now rewrite Hp.
  - change (String.append (String c a) (String.append sub b))
      with (String c (String.append a (String.append sub b))).
    now apply contains_cons.
Qed.

(** X13: the bounds of an int input, as the overriding [if] statements
    leave them: [backup_interval] has minimum 5 and no maximum, [threads]
    has the range 1 to 4, every other key that contains "interval", "wait"
    or "age" anywhere (so also "page_size" or "max_messages") has minimum 0
    and no maximum, and any other key is unbounded.  Only [threads] has a
    maximum. *)
Theorem int_input_bounds_table (key : string) :
  int_input_bounds key
  = (if String.eqb key "backup_interval" then (Some 5, None)
     else if String.eqb key "threads" then (Some 1, Some 4)
     else if contains "interval" key || contains "wait" key || contains "age" key
          then (Some 0, None)
          else (None, None))
  /\ (snd (int_input_bounds key) <> None -> key = "threads")
  /\ (forall a b, key = String.append a (String.append "age" b) ->
                  key <> "backup_interval" ->
                  int_input_bounds key = (Some 0, None)).
Proof.
  assert (int_input_bounds key
          = (if String.eqb key "backup_interval" then (Some 5, None)
             else if String.eqb key "threads" then (Some 1, Some 4)
             else if contains "interval" key || contains "wait" key
                     || contains "age" key
                  then (Some 0, None)
                  else (None, None))) as Htable.
  { unfold int_input_bounds.
    destruct (String.eqb_spec key "backup_interval") as [-> | Hb]; [reflexivity |].
    destruct (String.eqb_spec key "threads") as [-> | Ht]; [reflexivity |].
    now destruct (contains "interval" key || contains "wait" key
                  || contains "age" key). }
  split; [exact Htable |]. split.
  - rewrite Htable.
    destruct (String.eqb_spec key "backup_interval"); [simpl; congruence |].
    destruct (String.eqb_spec key "threads"); [easy |].
    destruct (contains "interval" key || contains "wait" key || contains "age" key);
      simpl; congruence.
  - intros a b Hkey Hne. rewrite Htable.
    destruct (String.eqb_spec key "backup_interval"); [congruence |].
    assert (contains "age" key = true) as Hage
      by (rewrite Hkey; apply contains_app).
    rewrite Hage, !orb_true_r.
    destruct (String.eqb_spec key "threads") as [Heq |]; [| reflexivity].
    rewrite Heq in Hage. discriminate Hage.
Qed.

(** X14: a float input is either unbounded with step 0.01, or bounded to
    the range 0 to 1; the step is 0.05 exactly for [random_variance], which
    contains none of "rate", "ctr" and "probability". *)
Theorem float_input_bounds_table (key : string) :
  (float_input_bounds key = (None, None, 0.01%float)
   \/ float_input_bounds key = (Some 0%float, Some 1%float, 0.01%float)
   \/ float_input_bounds key = (Some 0%float, Some 1%float, 0.05%float))
  /\ (float_input_bounds key = (Some 0%float, Some 1%float, 0.05%float)
      <-> key = "random_variance")
  /\ (forall a b, key = String.append a (String.append "rate" b) ->
                  float_input_bounds key = (Some 0%float, Some 1%float, 0.01%float)).
Proof.
  unfold float_input_bounds. split; [| split].
  - destruct (contains "rate" key || contains "ctr" key
              || contains "probability" key); [auto |].
    destruct (String.eqb key "random_variance"); auto.
  - split.
    + destruct (contains "rate" key || contains "ctr" key
                || contains "probability" key) eqn:Hc.
      * intros H.
        apply (f_equal (fun t => PrimFloat.ltb (snd t) 0.03%float)) in H.
        vm_compute in H. discriminate H.
      * destruct (String.eqb_spec key "random_variance"); [easy |].
        intros H. discriminate H.
    + intros ->. reflexivity.
  - intros a b ->. now rewrite contains_app.
Qed.

(** ** The API client *)

(** X15: whenever the fetch returns, it returns either the settings with no
    error, and then the URL is configured and the reply was a JSON object,
    or no settings and an error message that is not empty; it lets an
    exception through only when the request failed with one that is
    neither a [RequestException] nor a [JSONDecodeError].  Without a URL
    the answer does not depend on the transport. *)
Theorem fetch_settings_or_error (BOT_API_URL : option string)
  (get : string -> reply) :
  (forall data error,
      fetch_settings_data_from_api BOT_API_URL get = Returned (data, error) ->
      (exists settings,
          data = Some settings /\ error = None /\ no_url BOT_API_URL = false
          /\ get (api_endpoint BOT_API_URL) = Answered (VDict settings))
      \/ (data = None /\ is_error error = true))
  /\ (forall e,
         fetch_settings_data_from_api BOT_API_URL get = Raised e ->
         get (api_endpoint BOT_API_URL) = Failed e
         /\ exc_request e = false /\ exc_json e = false)
  /\ (no_url BOT_API_URL = true ->
      forall get',
        fetch_settings_data_from_api BOT_API_URL get'
        = fetch_settings_data_from_api BOT_API_URL get).
Proof.
  unfold fetch_settings_data_from_api. split; [| split].
  - intros data error. destruct (no_url BOT_API_URL) eqn:Hurl.
    + intros [= <- <-]. now right.
    + destruct (get (api_endpoint BOT_API_URL)) as [e | body] eqn:Hget.
      * destruct (exc_request e); [intros [= <- <-]; now right |].
        destruct (exc_json e); [intros [= <- <-]; now right | discriminate].
      * destruct body; intros [= <- <-]; try (now right).
        left. eexists. repeat split.
  - intros e. destruct (no_url BOT_API_URL); [discriminate |].
    destruct (get (api_endpoint BOT_API_URL)) as [e' | body].
    + destruct (exc_request e') eqn:Hr; [discriminate |].
      destruct (exc_json e') eqn:Hj; [discriminate |].
      intros [= <-]. now repeat split.
    + destruct body; discriminate.
  - intros Hurl get'. now rewrite Hurl.
Qed.

(** X16: the save reports success exactly when the reply is a JSON object,
    with the [message] entry of the reply or the default text; a request
    that fails with a [RequestException] or a [JSONDecodeError] is
    reported as a failure; a reply that decodes to JSON that is not an
    object is not reported at all: the [AttributeError] of the missing
    [get] passes both handlers. *)
Theorem save_outcomes (BOT_API_URL : option string)
  (post : string -> value -> reply) (settings_data : value) :
  (forall message,
      save_settings_via_api BOT_API_URL post settings_data
      = Returned (true, message) ->
      exists body,
        no_url BOT_API_URL = false
        /\ post (api_endpoint BOT_API_URL) settings_data = Answered (VDict body)
        /\ message
           = match dict_get "message" body with
             | Some m => m
             | None => VStr "Settings saved successfully."
             end)
  /\ (forall body,
         no_url BOT_API_URL = false ->
         post (api_endpoint BOT_API_URL) settings_data = Answered body ->
         save_settings_via_api BOT_API_URL post settings_data
         = if is_dict body
           then Returned
                  (true,
                   match body with
                   | VDict items =>
                       match dict_get "message" items with
                       | Some m => m
                       | None => VStr "Settings saved successfully."
                       end
                   | _ => VNone
                   end)
           else Raised attribute_error)
  /\ (forall e,
         no_url BOT_API_URL = false ->
         post (api_endpoint BOT_API_URL) settings_data = Failed e ->
         exc_request e || exc_json e = true ->
         exists message,
           save_settings_via_api BOT_API_URL post settings_data
           = Returned (false, VStr message)
           /\ PyStr.is_empty message = false).
Proof.
  unfold save_settings_via_api. split; [| split].
  - intros message. destruct (no_url BOT_API_URL); [discriminate |].
    destruct (post (api_endpoint BOT_API_URL) settings_data) as [e | body].
    + destruct (exc_request e); [discriminate |].
      destruct (exc_json e); discriminate.
    + destruct body; try discriminate. intros [= <-]. eexists. now repeat split.
  - intros body -> ->. now destruct body.
  - intros e -> -> He. destruct (exc_request e).
    + eexists. split; reflexivity.
    + simpl in He. rewrite He. eexists. split; reflexivity.
Qed.

Lemma save_outcomes_witness :
  save_settings_via_api sample_url (fun _ _ => Answered (VList [])) sample_tree
  = Raised attribute_error.
Proof.
  exact (proj1 (proj2 (save_outcomes sample_url (fun _ _ => Answered (VList []))
                         sample_tree))
           (VList []) eq_refl eq_refl).
Defined.

Lemma fetch_settings_or_error_witness :
  fetch_settings_data_from_api sample_url
    (fun _ => Failed connection_error)
  = Returned (None, Some "API Error fetching settings: ConnectionError")
  /\ is_error (Some "API Error fetching settings: ConnectionError") = true.
Proof.
  split; [reflexivity |].
  destruct (proj1 (fetch_settings_or_error sample_url
                     (fun _ => Failed connection_error))
              None (Some "API Error fetching settings: ConnectionError") eq_refl)
    as [(settings & H & _) | [_ H]]; [discriminate H | exact H].
Defined.

(** ** Runs of the page *)

Section Runs.

Variable rt : runtime.
Variable BOT_API_URL : option string.





End Runs.


(** X18: while a load error is held, a run calls neither function of
    the API client and shows the error instead of the form; it stops there
    with the session as it was, unless the retry button was clicked, and
    then it clears both variables and reruns, and the run after that calls
    the fetch again. *)
Theorem load_error_blocks (rt : runtime) (BOT_API_URL : option string)
  (get : string -> reply) (post : string -> value -> reply)
  (clicked : clicks) (s : session) (message : string) :
  no_url BOT_API_URL = false ->
  settings_fetch_error s = Some message ->
  PyStr.is_empty message = false ->
  let r := page_run rt BOT_API_URL get post clicked s in
  calls r = []
  /\ shown r = [LoadFailed message]
  /\ (retry_clicked clicked = false -> after r = s /\ ending r = Stop)
  /\ (retry_clicked clicked = true ->
      after r = cleared s /\ ending r = Rerun
      /\ forall get' post' clicked' entries,
           calls
             (page_run rt BOT_API_URL get' post' clicked'
                (with_widgets (after r) entries))
           = [Fetch]).
Proof.
  intros Hurl Herr Hne r.
  assert (r = if retry_clicked clicked then
                {| after := cleared s; shown := [LoadFailed message];
                   calls := []; ending := Rerun |}
              else
                {| after := s; shown := [LoadFailed message]; calls := [];
                   ending := Stop |}) as ->.
  { subst r. unfold page_run. rewrite Hurl, Herr. cbn [is_error].
    rewrite Hne. cbn [negb]. now destruct (current_settings_data s). }
  destruct (retry_clicked clicked); cbn [after shown calls ending];
    repeat split; try discriminate.
  intros get' post' clicked' entries. unfold page_run.
  cbn [with_widgets cleared current_settings_data settings_fetch_error].
  rewrite Hurl.
  now destruct (fetch_settings_data_from_api BOT_API_URL get') as [[? ?] | ?].
Qed.

Lemma load_error_blocks_witness :
  let failed :=
    after (page_run sample_runtime sample_url (fun _ => Failed connection_error)
             (fun _ _ => Failed connection_error) no_clicks fresh_session) in
  settings_fetch_error failed
  = Some "API Error fetching settings: ConnectionError"
  /\ calls (page_run sample_runtime sample_url
              (fun _ => Answered (VDict sample_settings))
              (fun _ _ => Failed connection_error) no_clicks failed)
     = [].
Proof.
  split; [reflexivity |].
  apply (load_error_blocks sample_runtime sample_url
           (fun _ => Answered (VDict sample_settings))
           (fun _ _ => Failed connection_error) no_clicks _
           "API Error fetching settings: ConnectionError");
    reflexivity.
Defined.

(** X19: an empty settings object is loaded without an error, but the
    runs that follow neither show the form nor call the fetch again: they
    show the waiting notice, whatever is clicked, and keep the empty
    settings until the reload button clears them. *)
Theorem empty_settings_wait (rt : runtime) (BOT_API_URL : option string)
  (get : string -> reply) (post : string -> value -> reply)
  (clicked : clicks) (s : session) :
  no_url BOT_API_URL = false ->
  current_settings_data s = None ->
  settings_fetch_error s = None ->
  get (api_endpoint BOT_API_URL) = Answered (VDict []) ->
  let loaded := page_run rt BOT_API_URL get post clicked s in
  ending loaded = Rerun
  /\ current_settings_data (after loaded) = Some []
  /\ settings_fetch_error (after loaded) = None
  /\ forall get' post' clicked' entries,
       let next :=
         page_run rt BOT_API_URL get' post' clicked'
           (with_widgets (after loaded) entries) in
       shown next = [Waiting]
       /\ calls next = []
       /\ ending next = (if reload_clicked clicked' then Rerun else Done)
       /\ current_settings_data (after next)
          = (if reload_clicked clicked' then None else Some [])
       /\ settings_fetch_error (after next) = None.
Proof.
  intros Hurl Hdata Herr Hget loaded.
  assert (loaded
          = {| after :=
                 {| current_settings_data := Some [];
                    settings_fetch_error := None;
                    widget_state := widget_state s |};
               shown := []; calls := [Fetch]; ending := Rerun |}) as ->.
  { subst loaded. unfold page_run, fetch_settings_data_from_api.
    now rewrite Hurl, Hdata, Herr, Hget. }
  cbn [after ending current_settings_data settings_fetch_error].
  split; [reflexivity | split; [reflexivity | split; [reflexivity |]]].
  intros get' post' clicked' entries. unfold page_run, reload_step.
  cbn [with_widgets current_settings_data settings_fetch_error is_error].
  rewrite Hurl.
  destruct (reload_clicked clicked'); cbn; repeat split; reflexivity.
Qed.

Lemma empty_settings_wait_witness :
  shown
    (page_run sample_runtime sample_url (fun _ => Failed connection_error)
       (fun _ _ => Failed connection_error) submit_click
       (with_widgets
          (after
             (page_run sample_runtime sample_url (fun _ => Answered (VDict []))
                (fun _ _ => Failed connection_error) no_clicks fresh_session))
          sample_edits))
  = [Waiting].
Proof.
  apply (empty_settings_wait sample_runtime sample_url
           (fun _ => Answered (VDict [])) (fun _ _ => Failed connection_error)
           no_clicks fresh_session eq_refl eq_refl eq_refl eq_refl).
Defined.



(** X21: the two variables of the page live in the session state that the
    rebuild reads, but they do not reach the posted tree: as long as no
    leaf of the settings has one of their names as its widget key, the
    rebuild from the whole session state is the rebuild from the entries
    of the widgets alone. *)
Theorem payload_ignores_page_variables (rt : runtime) (s : session)
  (settings : list (string * value)) :
  settings_tree (VDict settings) = true ->
  (forall p v, leaf_at (VDict settings) p v ->
               widget_id p <> "current_settings_data"
               /\ widget_id p <> "settings_fetch_error") ->
  build_updated_settings rt (session_view s) (VDict settings) []
  = build_updated_settings rt (widget_state s) (VDict settings) [].
Proof.
  intros Htree Hnames. apply build_ext; [now apply settings_tree_wf |].
  intros p v Hp Hv Hne. simpl.
  destruct (Hnames p v) as [Hdata Herr]; [now repeat split |].
  unfold session_view. now rewrite !lookup_insert_ne by congruence.
Qed.

Lemma payload_ignores_page_variables_witness :
  build_updated_settings sample_runtime
    (session_view
       {| current_settings_data := Some sample_settings;
          settings_fetch_error := None; widget_state := sample_edits |})
    sample_tree []
  = build_updated_settings sample_runtime sample_edits sample_tree [].
Proof.
  apply (payload_ignores_page_variables sample_runtime
           {| current_settings_data := Some sample_settings;
              settings_fetch_error := None; widget_state := sample_edits |}
           sample_settings eq_refl).
  intros p v Hleaf.
  pose proof (leaf_key_looked_up sample_runtime ∅ sample_tree p v eq_refl Hleaf)
    as Hin.
  generalize dependent (widget_id p). intros k Hin. vm_compute in Hin.
  repeat (destruct Hin as [<- | Hin]; [split; discriminate |]). destruct Hin.
Defined.

Lemma plain_path (p : list string) :
  forall (tree v : value),
    plain_keys tree = true -> lookup_path tree p = Some v ->
    Forall (fun k => no_underscore k = true) p /\ plain_keys v = true.
Proof.
  induction p as [| k rest IH]; intros tree v Hplain Hp.
  - injection Hp as <-. now split.
  - destruct tree as [| | | | | | d]; try discriminate. simpl in Hp.
    destruct (dict_get k d) as [x |] eqn:Hget; [| discriminate].
    apply dict_get_In in Hget. simpl in Hplain.
    rewrite forallb_forall in Hplain. apply Hplain in Hget. cbn [fst snd] in Hget.
    apply andb_prop in Hget as [Hk Hx].
    destruct (IH x v Hx Hp) as [Hrest Hv]. split; [| assumption].
    now constructor.
Qed.

(** X22: the separator is the only source of shared widget keys.  In a
    settings tree none of whose keys holds an underscore, two leaves with
    the same widget key are the same leaf: every leaf has a session state
    entry of its own. *)
Theorem plain_keys_distinct_widgets (tree : value) (p q : list string)
  (v w : value) :
  plain_keys tree = true ->
  leaf_at tree p v -> leaf_at tree q w ->
  widget_id p = widget_id q ->
  p = q /\ v = w.
Proof.
  intros Hplain (Hp & _ & Hpne) (Hq & _ & Hqne) Heq.
  destruct (plain_path p tree v Hplain Hp) as [Hkp _].
  destruct (plain_path q tree w Hplain Hq) as [Hkq _].
  assert (p = q) as -> by now apply widget_id_injective.
  split; [reflexivity | congruence].
Qed.

Lemma plain_keys_distinct_widgets_witness :
  ["bot"; "mode"] = ["bot"; "mode"] /\ VStr "prod" = VStr "prod".
Proof.
  apply (plain_keys_distinct_widgets nested_tree ["bot"; "mode"] ["bot"; "mode"]
           (VStr "prod") (VStr "prod")).
  - reflexivity.
  - repeat split; discriminate.
  - repeat split; discriminate.
  - reflexivity.
Defined.
